(** * smart-life-api: identity verification and tenant-bound data access

    A shallow embedding of the Express handlers of the repository
    (auth.js, routes/profiles, routes/family, routes/reminders,
    routes/notifications, routes/users) together with executable models of
    the three libraries they call (jsonwebtoken, bcrypt, pg), followed by
    the properties of the specification that concern them. *)

From Stdlib Require Import String Ascii List Bool Arith ZArith NArith Lia.
From Stdlib Require Import DecimalString DecimalN DecimalZ.
From Stdlib Require Import Permutation Sorted.
Import ListNotations.

Local Open Scope list_scope.
Local Open Scope string_scope.

(* ================================================================== *)
(** * JavaScript data *)
(* ================================================================== *)

(** A scalar JavaScript value: what pg hands back for a column, what a
    destructured body or query field holds, what a token claim carries.
    Text is kept as its UTF-8 bytes.  Numbers are the whole ones a
    double holds; what arithmetic on query fields can make of them is
    in [Js] below. *)
Inductive value : Type :=
| VUndefined
| VNull
| VBool (b : bool)
| VNum (z : Z)
| VStr (s : string).

(** A plain object with scalar fields (a result row, [req.body],
    [req.query]); key order is insertion order. *)
Definition row : Type := list (string * value).

(** Property access [o.k]: a missing key reads as [undefined]. *)
Fixpoint get (k : string) (o : row) : value :=
  match o with
  | [] => VUndefined
  | (k', v) :: o' => if String.eqb k k' then v else get k o'
  end.

(** What is handed to [res.json]. *)
#[local] Set Warnings "-register-all".
Inductive json : Type :=
| JVal (v : value)
| JArr (items : list json)
| JObj (fields : list (string * json)).

Definition json_of_row (r : row) : json :=
  JObj (map (fun kv => (fst kv, JVal (snd kv))) r).

Definition json_of_rows (rs : list row) : json :=
  JArr (map json_of_row rs).

(** [rows[0]]: the first row, or [undefined] when there is none. *)
Definition first_row (rs : list row) : json :=
  match rs with
  | [] => JVal VUndefined
  | r :: _ => json_of_row r
  end.

(** The keys of an object literal; anything else has none. *)
Definition keys (j : json) : list string :=
  match j with
  | JObj fs => map fst fs
  | _ => []
  end.

Definition has_key (k : string) (j : json) : bool :=
  existsb (String.eqb k) (keys j).

(** [JSON.stringify] yields [undefined] exactly on [undefined]; Express
    then ends the response with no payload. *)
Definition empty_payload (j : json) : bool :=
  match j with
  | JVal VUndefined => true
  | _ => false
  end.

(** JavaScript truthiness of a scalar. *)
Definition truthy (v : value) : bool :=
  match v with
  | VUndefined | VNull => false
  | VBool b => b
  | VNum z => negb (Z.eqb z 0)
  | VStr s => negb (String.eqb s "")
  end.

(** A thrown [Error]: class name, message and, for pg errors, SQLSTATE. *)
Record error : Type := mkError {
  name : string;
  message : string;
  code : option string
}.

(* ================================================================== *)
(** * Strings *)
(* ================================================================== *)

(** [s.split(sep)] for a one-character separator: every occurrence cuts,
    so consecutive separators give empty parts and the result is never
    empty. *)
Fixpoint split (sep : ascii) (s : string) : list string :=
  match s with
  | EmptyString => [EmptyString]
  | String c rest =>
      if Ascii.eqb c sep then EmptyString :: split sep rest
      else match split sep rest with
           | [] => [String c EmptyString]
           | p :: ps => String c p :: ps
           end
  end.

(** [c] does not occur in [s]. *)
Fixpoint free_of (c : ascii) (s : string) : bool :=
  match s with
  | EmptyString => true
  | String a rest => negb (Ascii.eqb a c) && free_of c rest
  end.

Module Hex.

(** Lower-case hexadecimal digit of a nibble given by its four bits,
    least significant first. *)
Definition digit (b0 b1 b2 b3 : bool) : ascii :=
  match b3, b2, b1, b0 with
  | false, false, false, false => "0"
  | false, false, false, true => "1"
  | false, false, true, false => "2"
  | false, false, true, true => "3"
  | false, true, false, false => "4"
  | false, true, false, true => "5"
  | false, true, true, false => "6"
  | false, true, true, true => "7"
  | true, false, false, false => "8"
  | true, false, false, true => "9"
  | true, false, true, false => "a"
  | true, false, true, true => "b"
  | true, true, false, false => "c"
  | true, true, false, true => "d"
  | true, true, true, false => "e"
  | true, true, true, true => "f"
  end%char.

Definition nibble (c : ascii) : option (bool * bool * bool * bool) :=
  match c with
  | "0" => Some (false, false, false, false)
  | "1" => Some (true, false, false, false)
  | "2" => Some (false, true, false, false)
  | "3" => Some (true, true, false, false)
  | "4" => Some (false, false, true, false)
  | "5" => Some (true, false, true, false)
  | "6" => Some (false, true, true, false)
  | "7" => Some (true, true, true, false)
  | "8" => Some (false, false, false, true)
  | "9" => Some (true, false, false, true)
  | "a" => Some (false, true, false, true)
  | "b" => Some (true, true, false, true)
  | "c" => Some (false, false, true, true)
  | "d" => Some (true, false, true, true)
  | "e" => Some (false, true, true, true)
  | "f" => Some (true, true, true, true)
  | _ => None
  end%char.

(** Two digits per character, high nibble first. *)
Fixpoint encode (s : string) : string :=
  match s with
  | EmptyString => EmptyString
  | String (Ascii b0 b1 b2 b3 b4 b5 b6 b7) rest =>
      String (digit b4 b5 b6 b7) (String (digit b0 b1 b2 b3) (encode rest))
  end.

Fixpoint decode (s : string) : option string :=
  match s with
  | EmptyString => Some EmptyString
  | String _ EmptyString => None
  | String hi (String lo rest) =>
      match nibble hi, nibble lo, decode rest with
      | Some (b4, b5, b6, b7), Some (b0, b1, b2, b3), Some r =>
          Some (String (Ascii b0 b1 b2 b3 b4 b5 b6 b7) r)
      | _, _, _ => None
      end
  end.

Definition is_digit (c : ascii) : bool :=
  match nibble c with Some _ => true | None => false end.

End Hex.

(** Decimal text of a number, as [String(n)] prints it, and back. *)
Definition dec_N (n : N) : string := NilEmpty.string_of_uint (N.to_uint n).

Definition undec_N (s : string) : option N :=
  option_map N.of_uint (NilEmpty.uint_of_string s).

Definition dec_Z (z : Z) : string := NilEmpty.string_of_int (Z.to_int z).

Definition undec_Z (s : string) : option Z :=
  option_map Z.of_int (NilEmpty.int_of_string s).

(** A 32-bit rolling checksum; it stands in for the keyed digests of
    jsonwebtoken (HMAC-SHA256) and bcrypt, of which only determinism is
    used. *)
Fixpoint checksum_from (h : N) (s : string) : N :=
  match s with
  | EmptyString => h
  | String c rest => checksum_from ((h * 33 + N_of_ascii c) mod 4294967296)%N rest
  end.

Definition checksum (s : string) : N := checksum_from 5381%N s.

(** What a library call or an awaited promise comes back with. *)
Inductive result (A : Type) : Type :=
| Ok (a : A)
| Threw (e : error).
Arguments Ok {A} a.
Arguments Threw {A} e.

(* ================================================================== *)
(** * Token Service: the jsonwebtoken calls of the program *)
(* ================================================================== *)

(** The payload [jwt.verify] returns and the middleware stores in
    [req.user]: the two claims signed at login plus the timestamps the
    library adds (seconds since the epoch). *)
Record principal : Type := mkPrincipal {
  id : value;
  email : value;
  iat : N;
  exp : N
}.

Module Jwt.

Definition JsonWebTokenError (msg : string) : error :=
  mkError "JsonWebTokenError" msg None.

Definition TokenExpiredError : error :=
  mkError "TokenExpiredError" "jwt expired" None.

(** A claim is carried as a tag followed by the hexadecimal text of its
    content, so that a segment holds neither [.] nor [_] nor a space. *)
Definition encode_claim (v : value) : string :=
  match v with
  | VUndefined => "u"
  | VNull => "n"
  | VBool true => "t"
  | VBool false => "f"
  | VNum z => "i" ++ Hex.encode (dec_Z z)
  | VStr s => "s" ++ Hex.encode s
  end.

Definition decode_claim (s : string) : option value :=
  match s with
  | String "u" EmptyString => Some VUndefined
  | String "n" EmptyString => Some VNull
  | String "t" EmptyString => Some (VBool true)
  | String "f" EmptyString => Some (VBool false)
  | String "i" h =>
      match Hex.decode h with
      | Some d => option_map VNum (undec_Z d)
      | None => None
      end
  | String "s" h => option_map VStr (Hex.decode h)
  | _ => None
  end.

Definition encode_time (n : N) : string := Hex.encode (dec_N n).

Definition decode_time (s : string) : option N :=
  match Hex.decode s with
  | Some d => undec_N d
  | None => None
  end.

Definition header_segment : string := Hex.encode "alg=HS256;typ=JWT".

Definition payload_segment (p : principal) : string :=
  encode_claim (id p) ++ "_" ++ encode_claim (email p) ++ "_" ++
  encode_time (iat p) ++ "_" ++ encode_time (exp p).

Definition decode_payload (s : string) : option principal :=
  match split "_" s with
  | [a; b; c; d] =>
      match decode_claim a, decode_claim b, decode_time c, decode_time d with
      | Some i, Some e, Some t0, Some t1 => Some (mkPrincipal i e t0 t1)
      | _, _, _, _ => None
      end
  | _ => None
  end.

Definition signature (secret signing_input : string) : string :=
  Hex.encode (dec_N (checksum (secret ++ "." ++ signing_input))).

(** Modelled from the spec: [jwt.sign({ id, email }, secret,
    { expiresIn })] of the jsonwebtoken package, which is not part of
    the sources, at time [now]: the claims and an expiry of
    [now + expiresIn] are serialised and signed with the secret. *)
Definition sign (i e : value) (secret : string) (expiresIn now : N)
  : result string :=
  if String.eqb secret "" then
    Threw (mkError "Error" "secretOrPrivateKey must have a value" None)
  else
    let input :=
      header_segment ++ "." ++
      payload_segment (mkPrincipal i e now (now + expiresIn)) in
    Ok (input ++ "." ++ signature secret input).

(** Modelled from the spec: [jwt.verify(token, secret)] of the
    jsonwebtoken package at time [now].  It fails on a malformed token,
    on a signature mismatch and on expiry, each with its own error, and
    checks in the order the package does: presence, three dot-separated
    segments, decodable payload, secret, signature, expiry. *)
Definition verify (token secret : string) (now : N) : result principal :=
  if String.eqb token "" then
    Threw (JsonWebTokenError "jwt must be provided")
  else
    match split "." token with
    | [h; p; s] =>
        match decode_payload p with
        | None => Threw (JsonWebTokenError "invalid token")
        | Some payload =>
            if String.eqb secret "" then
              Threw (JsonWebTokenError "secret or public key must be provided")
            else if negb (String.eqb s (signature secret (h ++ "." ++ p))) then
              Threw (JsonWebTokenError "invalid signature")
            else if (exp payload <=? now)%N then
              Threw TokenExpiredError
            else Ok payload
        end
    | _ => Threw (JsonWebTokenError "jwt malformed")
    end.

End Jwt.

(** A separator is a character that is neither a hexadecimal digit nor
    one of the claim tags. *)
Definition separator (c : ascii) : bool :=
  negb (Hex.is_digit c) &&
  negb (existsb (Ascii.eqb c) ["u"; "n"; "t"; "i"; "s"]%char).

(* ================================================================== *)
(** * Credential Hasher: the bcrypt calls of the program *)
(* ================================================================== *)

Module Bcrypt.

Definition digest (salt plaintext : string) : string :=
  Hex.encode (dec_N (checksum (salt ++ "$" ++ plaintext))).

(** A stored hash names its salt, as bcrypt's does. *)
Definition hash_with (salt plaintext : string) : string :=
  "$2b$" ++ Hex.encode salt ++ "$" ++ digest salt plaintext.

(** Modelled from the spec: [bcrypt.compare] of the bcrypt package on
    two strings; verification against a hash of another shape returns
    false rather than raising. *)
Definition compare (plaintext hashed : string) : bool :=
  match split "$" hashed with
  | [_; _; salt; _] =>
      match Hex.decode salt with
      | Some s => String.eqb hashed (hash_with s plaintext)
      | None => false
      end
  | _ => false
  end.

End Bcrypt.

(* ================================================================== *)
(** * The world a request runs in *)
(* ================================================================== *)

(** A server connection and the session-level value of the configuration
    key [app.current_user_id] on it ([None]: not set). *)
Record conn : Type := mkConn {
  cid : nat;
  current_user_id : option value
}.

(** What the database has in store for one statement it runs: the rows
    it finds, or a failure of its own. *)
Inductive outcome : Type :=
| Rows (rs : list row)
| Fails (e : error).

(** What a run leaves behind, newest first.  A [Query] records the
    binding that was in force on the connection when it ran. *)
Inductive event : Type :=
| Verify (token : string)
| Connect (c : nat)
| Query (c : nat) (text : string) (params : list value) (bound : option value)
| Release (c : nat)
| Remove (c : nat)
| ConsoleError (e : error)
| ConsoleLog (rs : list row).

(** [process.env], the clock, the pool exported by dbclient.js (idle
    clients as a stack, clients handed out, how many more it may open),
    what the database has in store for the coming statements, the
    response object, and the trace. *)
Record world : Type := mkWorld {
  JWT_SECRET : string;
  JWT_EXPIRES_IN : option N;
  clock : N;
  idle : list conn;
  leased : list conn;
  capacity : nat;
  fresh : nat;
  server : list outcome;
  statusCode : nat;
  sent : option json;
  trace : list event
}.

Definition set_pool (i l : list conn) (cap fr : nat) (w : world) : world :=
  mkWorld (JWT_SECRET w) (JWT_EXPIRES_IN w) (clock w) i l cap fr
          (server w) (statusCode w) (sent w) (trace w).

Definition set_leased (l : list conn) (w : world) : world :=
  set_pool (idle w) l (capacity w) (fresh w) w.

Definition set_server (sv : list outcome) (w : world) : world :=
  mkWorld (JWT_SECRET w) (JWT_EXPIRES_IN w) (clock w) (idle w) (leased w)
          (capacity w) (fresh w) sv (statusCode w) (sent w) (trace w).

Definition set_response (st : nat) (b : option json) (w : world) : world :=
  mkWorld (JWT_SECRET w) (JWT_EXPIRES_IN w) (clock w) (idle w) (leased w)
          (capacity w) (fresh w) (server w) st b (trace w).

Definition emit (e : event) (w : world) : world :=
  mkWorld (JWT_SECRET w) (JWT_EXPIRES_IN w) (clock w) (idle w) (leased w)
          (capacity w) (fresh w) (server w) (statusCode w) (sent w)
          (e :: trace w).

(** The response the caller has received, if any. *)
Definition response (w : world) : option (nat * json) :=
  option_map (fun b => (statusCode w, b)) (sent w).

(** Events in the order they happened. *)
Definition history (w : world) : list event := rev (trace w).

(* ------------------------------------------------------------------ *)
(** ** Asynchronous code: state and exceptions *)

Definition M (A : Type) : Type := world -> result A * world.

Definition ret {A : Type} (a : A) : M A := fun w => (Ok a, w).

Definition throw {A : Type} (e : error) : M A := fun w => (Threw e, w).

Definition bind {A B : Type} (m : M A) (k : A -> M B) : M B :=
  fun w =>
    match m w with
    | (Ok a, w') => k a w'
    | (Threw e, w') => (Threw e, w')
    end.

Declare Scope js_scope.
Delimit Scope js_scope with js.
Notation "x <- m ;; k" := (bind m (fun x => k))
  (at level 61, m at next level, right associativity) : js_scope.
Notation "m ;; k" := (bind m (fun _ => k))
  (at level 61, right associativity) : js_scope.
Local Open Scope js_scope.

(** [try { body } catch (err) { handler err }] *)
Definition try_catch {A : Type} (body : M A) (handler : error -> M A) : M A :=
  fun w =>
    match body w with
    | (Ok a, w') => (Ok a, w')
    | (Threw e, w') => handler e w'
    end.

(** [try { body } finally { fin }]: [fin] runs on every exit of [body];
    the completion of [body] stands unless [fin] itself throws. *)
Definition try_finally {A : Type} (body : M A) (fin : M unit) : M A :=
  fun w =>
    match body w with
    | (r, w') =>
        match fin w' with
        | (Ok _, w'') => (r, w'')
        | (Threw e, w'') => (Threw e, w'')
        end
    end.

(** [try { body } catch (err) { handler err } finally { fin }] *)
Definition try_catch_finally {A : Type}
  (body : M A) (handler : error -> M A) (fin : M unit) : M A :=
  try_finally (try_catch body handler) fin.

(** Lifting a library call that may throw. *)
Definition call {A : Type} (r : result A) : M A := fun w => (r, w).

(* ------------------------------------------------------------------ *)
(** ** pg: the pool and its clients *)

Module Pg.

Definition bind_statement : string := "SET app.current_user_id = $1".

(** Modelled from the spec: what a statement that succeeded leaves on
    the session (the database server and dbclient.js are not part of
    the sources).  [SET] is the session-scoped form: once it has run,
    the value stays on the connection until it is cleared; whether it
    runs is for [answer] below to say.  [set_config(_, _, true)] is the
    transaction-scoped form, undone when the transaction ends, which
    outside an explicit [BEGIN] is the statement itself. *)
Definition session_effect (text : string) (params : list value) (k : conn)
  : conn :=
  if String.eqb text bind_statement
  then mkConn (cid k) (Some (hd VUndefined params))
  else k.

Fixpoint take (c : nat) (l : list conn) : option (conn * list conn) :=
  match l with
  | [] => None
  | k :: l' =>
      if Nat.eqb (cid k) c then Some (k, l')
      else match take c l' with
           | Some (k', r) => Some (k', k :: r)
           | None => None
           end
  end.

(** Modelled from the spec: [pool.connect()] of the pool exported by
    dbclient.js.  It pops an idle client, opens a new connection when
    none is idle and the pool may still grow, and rejects otherwise. *)
Definition connect : M nat :=
  fun w =>
    match idle w with
    | k :: rest =>
        (Ok (cid k),
         emit (Connect (cid k))
           (set_pool rest (k :: leased w) (capacity w) (fresh w) w))
    | [] =>
        match capacity w with
        | S cap =>
            (Ok (fresh w),
             emit (Connect (fresh w))
               (set_pool [] (mkConn (fresh w) None :: leased w) cap
                  (S (fresh w)) w))
        | O =>
            (Threw (mkError "Error" "timeout exceeded when trying to connect"
                      None), w)
        end
    end.

(** Modelled from the spec: what the parser of the database, which is
    PostgreSQL and not part of the sources, accepts.
    [SET] is a utility statement and takes no bind parameters: a [SET]
    whose text holds a placeholder is refused before it runs.  Queries
    and data statements ([SELECT], [INSERT], [UPDATE], [DELETE]) take
    placeholders. *)
Fixpoint has_placeholder (text : string) : bool :=
  match text with
  | EmptyString => false
  | String c rest => Ascii.eqb c "$" || has_placeholder rest
  end.

Definition parses (text : string) : bool :=
  negb (String.prefix "SET " text && has_placeholder text).

Definition quote : string := String "034" EmptyString.

(** The error of class 42601 the database raises for such a text. *)
Definition syntax_error : error :=
  mkError "error" ("syntax error at or near " ++ quote ++ "$1" ++ quote)
    (Some "42601").

(** The answer of the database to a statement.  The script of the
    world says where the database fails for a reason of its own and
    which rows it finds; a statement it cannot parse is refused
    whatever the script holds, and a database with nothing special to
    say finds no rows. *)
Definition answer (text : string) (script : list outcome)
  : outcome * list outcome :=
  match script with
  | Fails e :: rest => (Fails e, rest)
  | Rows rs :: rest =>
      (if parses text then Rows rs else Fails syntax_error, rest)
  | [] => (if parses text then Rows [] else Fails syntax_error, [])
  end.

(** Modelled from the spec: [client.query(text, params)] on a client
    that is checked out; the statement runs on that connection and
    either yields rows or raises the database's error. *)
Definition query (c : nat) (text : string) (params : list value)
  : M (list row) :=
  fun w =>
    match take c (leased w) with
    | None =>
        (Threw (mkError "Error" "Client was released" None), w)
    | Some (k, others) =>
        let w1 := emit (Query c text params (current_user_id k))
                    (set_server (snd (answer text (server w))) w) in
        match fst (answer text (server w)) with
        | Rows rs =>
            (Ok rs, set_leased (session_effect text params k :: others) w1)
        | Fails e => (Threw e, w1)
        end
    end.

(** Modelled from the spec: [client.release()].  The client goes back
    on the idle stack as it is; a second release of the same client
    throws. *)
Definition release (c : nat) : M unit :=
  fun w =>
    match take c (leased w) with
    | None =>
        (Threw (mkError "Error"
                  "Release called on client which has already been released to the pool."
                  None), w)
    | Some (k, others) =>
        (Ok tt,
         emit (Release c)
           (set_pool (k :: idle w) others (capacity w) (fresh w) w))
    end.

(** [client.release(err)] with an error: the pool closes the client
    instead of keeping it. *)
Definition remove (c : nat) : M unit :=
  fun w =>
    match take c (leased w) with
    | None => (Ok tt, w)
    | Some (k, others) =>
        (Ok tt,
         emit (Remove c)
           (set_pool (idle w) others (S (capacity w)) (fresh w) w))
    end.

(** [pool.query(text, params)]: check out, run, and release; a client
    whose statement failed is released with the error. *)
Definition pool_query (text : string) (params : list value) : M (list row) :=
  c <- connect ;;
  fun w =>
    match query c text params w with
    | (Ok rs, w') => (release c ;; ret rs) w'
    | (Threw e, w') => (remove c ;; throw e) w'
    end.

End Pg.

(* ------------------------------------------------------------------ *)
(** ** Express, console, and the library calls inside the world *)

Record request : Type := mkRequest {
  authorization : option string;
  user : option principal;
  params_id : value;
  query : row;
  body : row
}.

Definition set_user (p : principal) (req : request) : request :=
  mkRequest (authorization req) (Some p) (params_id req) (query req) (body req).

(** [req.user.id] *)
Definition req_user_id (req : request) : M value :=
  match user req with
  | Some p => ret (id p)
  | None =>
      throw (mkError "TypeError"
               "Cannot read properties of undefined (reading 'id')" None)
  end.

(** [res.status(code)] *)
Definition res_status (st : nat) : M unit :=
  fun w => (Ok tt, set_response st (sent w) w).

(** [res.json(body)] *)
Definition res_json (b : json) : M unit :=
  fun w =>
    match sent w with
    | Some _ =>
        (Threw (mkError "Error"
                  "Cannot set headers after they are sent to the client"
                  (Some "ERR_HTTP_HEADERS_SENT")), w)
    | None => (Ok tt, set_response (statusCode w) (Some b) w)
    end.

Definition error_body (msg : string) : json :=
  JObj [("error", JVal (VStr msg))].

Definition console_error (e : error) : M unit :=
  fun w => (Ok tt, emit (ConsoleError e) w).

Definition console_log (rs : list row) : M unit :=
  fun w => (Ok tt, emit (ConsoleLog rs) w).

(** [jwt.verify(token, process.env.JWT_SECRET)] *)
Definition jwt_verify (token : string) : M principal :=
  fun w => (Jwt.verify token (JWT_SECRET w) (clock w), emit (Verify token) w).

(** [process.env.JWT_EXPIRES_IN || "1d"], in seconds *)
Definition expires_in (w : world) : N :=
  match JWT_EXPIRES_IN w with
  | Some n => n
  | None => 86400%N
  end.

(** [jwt.sign({ id, email }, process.env.JWT_SECRET, { expiresIn })] *)
Definition jwt_sign (i e : value) : M string :=
  fun w => (Jwt.sign i e (JWT_SECRET w) (expires_in w) (clock w), w).

(** [bcrypt.compare(data, hash)] *)
Definition bcrypt_compare (data hashed : value) : M bool :=
  match data, hashed with
  | VStr d, VStr h => ret (Bcrypt.compare d h)
  | _, _ => throw (mkError "Error" "data and hash arguments required" None)
  end.

(** JavaScript numbers, as far as this program meets them: the values
    of [parseInt] and their differences and products.  All of these
    are whole numbers a double holds, an infinity or [NaN]; the two
    zeros print alike and are one value here. *)
Module Js.

Inductive number :=
| Finite (z : Z)
| Infinite (negative : bool)
| NaN.

(** The double nearest to a whole number: exact below 2^53, otherwise
    53 significant bits with ties to the even one, and an infinity
    from 2^1024 on. *)
Definition round (z : Z) : number :=
  (let a := Z.abs z in
   if a <? 2 ^ 53 then Finite z
   else
     let e := Z.log2 a - 52 in
     let q := Z.shiftr a e in
     let r := a - Z.shiftl q e in
     let half := Z.shiftl 1 (e - 1) in
     let q' := if (half <? r) || ((r =? half) && Z.odd q) then q + 1 else q in
     let m := Z.shiftl q' e in
     if 2 ^ 1024 <=? m then Infinite (z <? 0) else Finite (Z.sgn z * m))%Z.

(** [Number.isSafeInteger(z)]: the whole numbers every one of which
    is a double of its own. *)
Definition safe (z : Z) : Prop := (Z.abs z < 2 ^ 53)%Z.

(** [a - b] *)
Definition sub (a b : number) : number :=
  match a, b with
  | NaN, _ | _, NaN => NaN
  | Finite x, Finite y => round (x - y)
  | Infinite s, Finite _ => Infinite s
  | Finite _, Infinite s => Infinite (negb s)
  | Infinite s, Infinite t => if Bool.eqb s t then NaN else Infinite s
  end.

(** [a * b] *)
Definition mul (a b : number) : number :=
  match a, b with
  | NaN, _ | _, NaN => NaN
  | Finite x, Finite y => round (x * y)
  | Infinite s, Finite y | Finite y, Infinite s =>
      if (y =? 0)%Z then NaN else Infinite (xorb s (y <? 0)%Z)
  | Infinite s, Infinite t => Infinite (xorb s t)
  end.

(** [a || b]: zero and [NaN] are falsy. *)
Definition or_else (a b : number) : number :=
  match a with
  | NaN => b
  | Finite z => if (z =? 0)%Z then b else a
  | Infinite _ => a
  end.

(** The first digit of [String(z)] for a double [z] of 10^21 or more,
    which prints as the shortest decimal that reads back as [z], in
    exponent form: the first digit of [z], unless a one-digit decimal
    above [z] is still nearer to [z] than to the next double. *)
Fixpoint leading (fuel : nat) (z : Z) : Z * Z :=
  match fuel with
  | O => (z, 1%Z)
  | S n => if (z <? 10)%Z then (z, 1%Z)
           else let (d, p) := leading n (z / 10)%Z in (d, 10 * p)%Z
  end.

Definition first_printed_digit (z : Z) : Z :=
  (let (d, p) := leading (Z.to_nat (Z.log2 z)) z in
   let e := Z.log2 z - 52 in
   let q := Z.shiftr z e in
   let above := 2 * (d + 1) * p in
   let reach := 2 * z + Z.shiftl 1 e in
   if (above <? reach) || ((above =? reach) && Z.even q)
   then (if d =? 9 then 1 else d + 1)
   else d)%Z.

(** A number among the parameters of a statement, which the driver
    sends as text. *)
Definition param (n : number) : value :=
  match n with
  | Finite z => VNum z
  | Infinite false => VStr "Infinity"
  | Infinite true => VStr "-Infinity"
  | NaN => VStr "NaN"
  end.

(** A number in a JSON body: [JSON.stringify] writes [null] for what
    is not finite. *)
Definition json_number (n : number) : value :=
  match n with
  | Finite z => VNum z
  | _ => VNull
  end.

End Js.

(** [parseInt(v)] with no radix: leading white space, a sign, then the
    longest run of digits (hexadecimal after [0x]), read as a whole
    number and rounded to a double.  Strings are the UTF-8 bytes of the
    text, so the white space of the language beyond ASCII takes two or
    three bytes. *)
Module ParseInt.

(** TAB, LF, VT, FF, CR and the space. *)
Definition ascii_space (c : ascii) : bool :=
  let n := nat_of_ascii c in
  (Nat.leb 9 n && Nat.leb n 13) || Nat.eqb n 32.

(** U+00A0 *)
Definition two_byte_space (a b : ascii) : bool :=
  Nat.eqb (nat_of_ascii a) 194 && Nat.eqb (nat_of_ascii b) 160.

(** U+1680, U+2000 to U+200A, U+2028, U+2029, U+202F, U+205F, U+3000
    and U+FEFF. *)
Definition three_byte_space (a b c : ascii) : bool :=
  let x := nat_of_ascii a in
  let y := nat_of_ascii b in
  let z := nat_of_ascii c in
  (Nat.eqb x 225 && Nat.eqb y 154 && Nat.eqb z 128)
  || (Nat.eqb x 226 && Nat.eqb y 128
      && ((Nat.leb 128 z && Nat.leb z 138)
          || Nat.eqb z 168 || Nat.eqb z 169 || Nat.eqb z 175))
  || (Nat.eqb x 226 && Nat.eqb y 129 && Nat.eqb z 159)
  || (Nat.eqb x 227 && Nat.eqb y 128 && Nat.eqb z 128)
  || (Nat.eqb x 239 && Nat.eqb y 187 && Nat.eqb z 191).

Fixpoint trim_start (s : string) : string :=
  match s with
  | String a s1 =>
      if ascii_space a then trim_start s1
      else
        match s1 with
        | String b s2 =>
            if two_byte_space a b then trim_start s2
            else
              match s2 with
              | String c s3 =>
                  if three_byte_space a b c then trim_start s3 else s
              | EmptyString => s
              end
        | EmptyString => s
        end
  | EmptyString => s
  end.

Definition digit_in (radix : Z) (c : ascii) : option Z :=
  let n := Z.of_nat (nat_of_ascii c) in
  let d :=
    (if (48 <=? n) && (n <=? 57) then n - 48
     else if (97 <=? n) && (n <=? 122) then n - 87
     else if (65 <=? n) && (n <=? 90) then n - 55
     else radix)%Z in
  if (d <? radix)%Z then Some d else None.

(** The whole number the leading digits spell; [None] without one. *)
Fixpoint digits (radix : Z) (s : string) (acc : option Z) : option Z :=
  match s with
  | EmptyString => acc
  | String c rest =>
      match digit_in radix c with
      | Some d =>
          digits radix rest
            (Some (radix * match acc with Some a => a | None => 0 end + d))
      | None => acc
      end
  end%Z.

Definition unsigned (s : string) : option Z :=
  match s with
  | String "0" (String "x" rest) | String "0" (String "X" rest) =>
      digits 16 rest None
  | _ => digits 10 s None
  end.

Definition to_number (o : option Z) : Js.number :=
  match o with
  | Some z => Js.round z
  | None => Js.NaN
  end.

Definition of_string (s : string) : Js.number :=
  match trim_start s with
  | String "-" rest => to_number (option_map Z.opp (unsigned rest))
  | String "+" rest => to_number (unsigned rest)
  | t => to_number (unsigned t)
  end.

(** What is not a string is first turned into one: a number below
    10^21 prints its digits, a larger one its first digit followed by
    a fraction and an exponent. *)
Definition parseInt (v : value) : Js.number :=
  match v with
  | VStr s => of_string s
  | VNum z =>
      if (Z.abs z <? 10 ^ 21)%Z then Js.round z
      else Js.Finite (Z.sgn z * Js.first_printed_digit (Z.abs z))
  | _ => Js.NaN
  end.

(** [parseInt(v) || fallback] *)
Definition or_default (v : value) (fallback : Z) : Js.number :=
  Js.or_else (parseInt v) (Js.Finite fallback).

End ParseInt.

(* ================================================================== *)
(** * auth.js: the Principal Extraction Middleware *)
(* ================================================================== *)

Definition unauthorized (msg : string) : M unit :=
  res_status 401 ;; res_json (error_body msg).

(** The test of line 13, negated: exactly two parts, the first being
    [Bearer]. *)
Definition well_formed (authHeader : string) : bool :=
  let parts := split " " authHeader in
  Nat.eqb (length parts) 2 && String.eqb (hd "" parts) "Bearer".

(** [authMiddleware(req, res, next)].  The [try] block holds the call of
    [jwt.verify] and the call of [next]; the handlers behind [next] are
    [async] functions, whose failure is a rejected promise and not an
    exception of this block, so [catch] sees the errors of [jwt.verify]
    only. *)
Definition authMiddleware (req : request) (next : request -> M unit) : M unit :=
  match authorization req with
  | None => unauthorized "Missing Authorization header"
  | Some authHeader =>
      if String.eqb authHeader "" then
        unauthorized "Missing Authorization header"
      else if negb (well_formed authHeader) then
        unauthorized "Invalid Authorization header format"
      else
        let token := nth 1 (split " " authHeader) "" in
        fun w =>
          match jwt_verify token w with
          | (Ok payload, w') => next (set_user payload req) w'
          | (Threw err, w') =>
              unauthorized ("Invalid token: " ++ message err) w'
          end
  end.

(* ================================================================== *)
(** * The route handlers *)
(* ================================================================== *)

(** SQL texts are the source's, with each run of white space inside a
    template literal written as one space. *)

(** routes/profiles.routes.js *)

Definition get_profile (req : request) : M unit :=
  client <- Pg.connect ;;
  try_catch_finally
    (uid <- req_user_id req ;;
     Pg.query client "SET app.current_user_id = $1" [uid] ;;
     uid' <- req_user_id req ;;
     rows <- Pg.query client "SELECT * FROM profiles WHERE user_id = $1" [uid'] ;;
     res_json (first_row rows))
    (fun err =>
       console_error err ;;
       res_status 500 ;; res_json (error_body "Failed to fetch profile"))
    (Pg.release client).

Definition put_profile (req : request) : M unit :=
  let full_name := get "full_name" (body req) in
  let avatar_url := get "avatar_url" (body req) in
  client <- Pg.connect ;;
  try_catch_finally
    (uid <- req_user_id req ;;
     Pg.query client "SET app.current_user_id = $1" [uid] ;;
     uid' <- req_user_id req ;;
     rows <- Pg.query client
       "UPDATE profiles SET full_name = $1, avatar_url = $2 WHERE user_id = $3 RETURNING *"
       [full_name; avatar_url; uid'] ;;
     res_json (first_row rows))
    (fun err =>
       console_error err ;;
       res_status 500 ;; res_json (error_body "Failed to update profile"))
    (Pg.release client).

(** routes/family.routes.js *)

Definition get_family (req : request) : M unit :=
  client <- Pg.connect ;;
  try_finally
    (uid <- req_user_id req ;;
     Pg.query client "SET app.current_user_id = $1" [uid] ;;
     uid' <- req_user_id req ;;
     rows <- Pg.query client
       "SELECT * FROM family_members WHERE account_owner_id = $1" [uid'] ;;
     res_json (json_of_rows rows))
    (Pg.release client).

Definition post_family (req : request) : M unit :=
  let name := get "name" (body req) in
  let email := get "email" (body req) in
  let relationship := get "relationship" (body req) in
  let avatar_url := get "avatar_url" (body req) in
  client <- Pg.connect ;;
  try_catch_finally
    (uid <- req_user_id req ;;
     Pg.query client "SET app.current_user_id = $1" [uid] ;;
     uid' <- req_user_id req ;;
     rows <- Pg.query client
       "INSERT INTO family_members (account_owner_id, name, email, relationship, avatar_url) VALUES ($1, $2, $3, $4, $5) RETURNING *"
       [uid'; name; email; relationship; avatar_url] ;;
     res_status 201 ;; res_json (first_row rows))
    (fun err =>
       console_error err ;;
       res_status 400 ;; res_json (error_body (message err)))
    (Pg.release client).

Definition put_family_id (req : request) : M unit :=
  let id := params_id req in
  let name := get "name" (body req) in
  let email := get "email" (body req) in
  let relationship := get "relationship" (body req) in
  let avatar_url := get "avatar_url" (body req) in
  let is_active := get "is_active" (body req) in
  client <- Pg.connect ;;
  try_finally
    (uid <- req_user_id req ;;
     Pg.query client "SET app.current_user_id = $1" [uid] ;;
     rows <- Pg.query client
       "UPDATE family_members SET name=$1, email=$2, relationship=$3, avatar_url=$4, is_active=$5 WHERE id=$6 RETURNING *"
       [name; email; relationship; avatar_url; is_active; id] ;;
     res_json (first_row rows))
    (Pg.release client).

Definition delete_family_id (req : request) : M unit :=
  client <- Pg.connect ;;
  try_finally
    (uid <- req_user_id req ;;
     Pg.query client "SET app.current_user_id = $1" [uid] ;;
     Pg.query client "DELETE FROM family_members WHERE id=$1" [params_id req] ;;
     res_json (JObj [("success", JVal (VBool true))]))
    (Pg.release client).

(** routes/reminders.routes.js *)

Definition placeholder (n : nat) : string := "$" ++ dec_N (N.of_nat n).

Definition get_reminders (req : request) : M unit :=
  client <- Pg.connect ;;
  try_catch_finally
    (uid <- req_user_id req ;;
     Pg.query client "SELECT set_config($1, $2, true)"
       [VStr "app.current_user_id"; uid] ;;
     let page := ParseInt.or_default (get "page" (query req)) 1 in
     let limit := ParseInt.or_default (get "limit" (query req)) 20 in
     let offset := Js.mul (Js.sub page (Js.Finite 1)) limit in
     let filterParams :=
       match get "completed" (query req) with
       | VUndefined => []
       | VStr "true" => [VBool true]
       | _ => [VBool false]
       end in
     let filterQuery :=
       match get "completed" (query req) with
       | VUndefined => ""
       | _ => "WHERE completed = " ++ placeholder (length filterParams)
       end in
     rows <- Pg.query client
       ("SELECT * FROM reminders " ++ filterQuery ++
        " ORDER BY due_date ASC LIMIT " ++ placeholder (length filterParams + 1) ++
        " OFFSET " ++ placeholder (length filterParams + 2))
       (filterParams ++ [Js.param limit; Js.param offset])%list ;;
     res_json (JObj [("page", JVal (Js.json_number page));
                     ("limit", JVal (Js.json_number limit));
                     ("reminders", json_of_rows rows)]))
    (fun err =>
       console_error err ;;
       res_status 500 ;; res_json (error_body "Internal server error"))
    (Pg.release client).

Definition post_reminders (req : request) : M unit :=
  let assigned_member_id := get "assigned_member_id" (body req) in
  let title := get "title" (body req) in
  let description := get "description" (body req) in
  let category := get "category" (body req) in
  let priority := get "priority" (body req) in
  let due_date := get "due_date" (body req) in
  let due_time := get "due_time" (body req) in
  let location := get "location" (body req) in
  client <- Pg.connect ;;
  try_finally
    (uid <- req_user_id req ;;
     Pg.query client "SET app.current_user_id = $1" [uid] ;;
     uid' <- req_user_id req ;;
     rows <- Pg.query client
       "INSERT INTO reminders (user_id, assigned_member_id, title, description, category, priority, due_date, due_time, location) VALUES ($1,$2,$3,$4,$5,$6,$7,$8,$9) RETURNING *"
       [uid'; assigned_member_id; title; description; category; priority;
        due_date; due_time; location] ;;
     res_status 201 ;; res_json (first_row rows))
    (Pg.release client).

Definition patch_reminders_id_complete (req : request) : M unit :=
  client <- Pg.connect ;;
  try_finally
    (uid <- req_user_id req ;;
     Pg.query client "SET app.current_user_id = $1" [uid] ;;
     rows <- Pg.query client
       "UPDATE reminders SET completed = true, completed_at = now() WHERE id = $1 RETURNING *"
       [params_id req] ;;
     res_json (first_row rows))
    (Pg.release client).

(** routes/notifications.routes.js *)

Definition get_notifications (req : request) : M unit :=
  client <- Pg.connect ;;
  try_finally
    (uid <- req_user_id req ;;
     Pg.query client "SET app.current_user_id = $1" [uid] ;;
     rows <- Pg.query client
       " SELECT n.* FROM notifications n ORDER BY n.created_at DESC " [] ;;
     res_json (json_of_rows rows))
    (Pg.release client).

Definition patch_notifications_id_read (req : request) : M unit :=
  client <- Pg.connect ;;
  try_finally
    (uid <- req_user_id req ;;
     Pg.query client "SET app.current_user_id = $1" [uid] ;;
     rows <- Pg.query client
       "UPDATE notifications SET read = true WHERE id = $1 RETURNING *"
       [params_id req] ;;
     res_json (first_row rows))
    (Pg.release client).

(** routes/users.routes.js *)

Definition users_statement : string :=
  "SELECT * FROM public.users ORDER BY created_at DESC".

Definition get_users (req : request) : M unit :=
  try_catch
    (rows <- Pg.pool_query users_statement [] ;;
     res_json (json_of_rows rows))
    (fun err =>
       console_error err ;;
       res_status 500 ;; res_json (error_body "Internal server error")).

Definition post_login (req : request) : M unit :=
  try_catch
    (let email := get "email" (body req) in
     let password := get "password" (body req) in
     rows <- Pg.pool_query
       "SELECT u.id, u.email, u.full_name, u.password_hash, p.plan_type FROM users u JOIN profiles p ON u.id = p.user_id WHERE u.email = $1"
       [email] ;;
     console_log rows ;;
     match rows with
     | [] => res_status 400 ;; res_json (error_body "Invalid email or password")
     | user :: _ =>
         isMatch <- bcrypt_compare password (get "password_hash" user) ;;
         if negb isMatch then
           res_status 400 ;; res_json (error_body "Invalid email or password")
         else
           token <- jwt_sign (get "id" user) (get "email" user) ;;
           res_json
             (JObj [("token", JVal (VStr token));
                    ("user",
                     JObj [("id", JVal (get "id" user));
                           ("email", JVal (get "email" user));
                           ("full_name", JVal (get "full_name" user));
                           ("plan_type", JVal (get "plan_type" user))])])
     end)
    (fun err =>
       console_error err ;;
       res_status 500 ;; res_json (error_body "Internal server error")).

(** index.js: the routes mounted under [/api] that the properties below
    are about, and what is registered for each. *)
Inductive route : Type :=
| GET_profile
| PUT_profile
| GET_family
| POST_family
| PUT_family_id
| DELETE_family_id
| GET_reminders
| POST_reminders
| PATCH_reminders_id_complete
| GET_notifications
| PATCH_notifications_id_read
| GET_users
| POST_login.

Definition handler (r : route) : request -> M unit :=
  match r with
  | GET_profile => get_profile
  | PUT_profile => put_profile
  | GET_family => get_family
  | POST_family => post_family
  | PUT_family_id => put_family_id
  | DELETE_family_id => delete_family_id
  | GET_reminders => get_reminders
  | POST_reminders => post_reminders
  | PATCH_reminders_id_complete => patch_reminders_id_complete
  | GET_notifications => get_notifications
  | PATCH_notifications_id_read => patch_notifications_id_read
  | GET_users => get_users
  | POST_login => post_login
  end.

(** Routes registered with [authMiddleware] in front of the handler. *)
Definition protected (r : route) : bool :=
  match r with
  | POST_login => false
  | _ => true
  end.

(** Handlers that check a client out and bind the caller's id on it. *)
Definition tenant_scoped (r : route) : bool :=
  match r with
  | GET_users | POST_login => false
  | _ => true
  end.

(** Handlers with a [catch] clause. *)
Definition catches (r : route) : bool :=
  match r with
  | GET_profile | PUT_profile | POST_family | GET_reminders
  | GET_users | POST_login => true
  | _ => false
  end.

(** One request served through the router. *)
Definition serve (r : route) (req : request) : M unit :=
  if protected r then authMiddleware req (handler r) else handler r req.

(** Occurrences in a trace. *)
Definition is_release (c : nat) (e : event) : bool :=
  match e with
  | Release c' => Nat.eqb c c'
  | _ => false
  end.

Definition is_query (e : event) : bool :=
  match e with
  | Query _ _ _ _ => true
  | _ => false
  end.

Definition is_verify (e : event) : bool :=
  match e with
  | Verify _ => true
  | _ => false
  end.

Definition releases (c : nat) (t : list event) : nat :=
  length (filter (is_release c) t).

Definition queries (t : list event) : list event := filter is_query t.

Definition verifications (t : list event) : list event := filter is_verify t.

(* ================================================================== *)
(** * Vocabulary of the properties *)
(* ================================================================== *)

(** A response object nothing has been written to yet. *)
Definition fresh_response (w : world) : Prop :=
  statusCode w = 200 /\ sent w = None.

(** The statement a tenant-scoped handler binds the caller with. *)
Definition bind_text (r : route) : string :=
  match r with
  | GET_reminders => "SELECT set_config($1, $2, true)"
  | _ => "SET app.current_user_id = $1"
  end.

Definition bind_params (r : route) (uid : value) : list value :=
  match r with
  | GET_reminders => [VStr "app.current_user_id"; uid]
  | _ => [uid]
  end.

(** Modelled from the spec: the value of a header as the HTTP parser
    of Node, which is not part of the sources, hands it to Express:
    without the spaces and tabs around it. *)
Module Http.

Definition is_ows (c : ascii) : bool :=
  Ascii.eqb c " " || Nat.eqb (nat_of_ascii c) 9.

Fixpoint trim_start (s : string) : string :=
  match s with
  | String c rest => if is_ows c then trim_start rest else s
  | EmptyString => s
  end.

Fixpoint trim_end (s : string) : string :=
  match s with
  | EmptyString => EmptyString
  | String c rest =>
      match trim_end rest with
      | EmptyString => if is_ows c then EmptyString else String c EmptyString
      | kept => String c kept
      end
  end.

Definition received (raw : string) : string := trim_end (trim_start raw).

End Http.

(** Modelled from the spec: what the database makes of a statement of
    the shape [SELECT * FROM t ORDER BY c DESC] over its tables: every
    row of [t], by falling [c].  The column holds milliseconds since
    the epoch; a row without a number there counts as 0. *)
Definition database : Type := string -> list row.

Module Sql.

Definition key (column : string) (r : row) : Z :=
  match get column r with
  | VNum z => z
  | _ => 0%Z
  end.

Fixpoint insert_desc (column : string) (r : row) (l : list row) : list row :=
  match l with
  | [] => [r]
  | r' :: l' =>
      if (key column r' <=? key column r)%Z then r :: l
      else r' :: insert_desc column r l'
  end.

Definition order_by_desc (column : string) (table : list row) : list row :=
  fold_right (insert_desc column) [] table.

Definition select (db : database) (text : string) : option (list row) :=
  match split " " text with
  | [s; star; from; table; order; by_; column; desc] =>
      if String.eqb s "SELECT" && String.eqb star "*"
         && String.eqb from "FROM" && String.eqb order "ORDER"
         && String.eqb by_ "BY" && String.eqb desc "DESC"
      then Some (order_by_desc column (db table))
      else None
  | _ => None
  end.

End Sql.


(** [needle] occurs somewhere in [s]. *)
Fixpoint occurs_in (needle s : string) : bool :=
  String.prefix needle s ||
  match s with
  | EmptyString => false
  | String _ rest => occurs_in needle rest
  end.

(** The string leaves of a body. *)
Fixpoint strings_of (j : json) : list string :=
  match j with
  | JVal (VStr s) => [s]
  | JVal _ => []
  | JArr items => flat_map strings_of items
  | JObj fields => flat_map (fun kv => strings_of (snd kv)) fields
  end.

Definition mentions (text : string) (j : json) : bool :=
  existsb (occurs_in text) (strings_of j).

(** A response to a storage failure [e] that is a server error and says
    nothing of the database's own words. *)
Definition generic_server_error (resp : option (nat * json)) (e : error) : Prop :=
  exists st body,
    resp = Some (st, body) /\ 500 <= st < 600 /\ mentions (message e) body = false.

(** The statement of a handler that raises [e]: its first, for a
    reason of the database's own; the bind of a tenant-scoped handler,
    which the database may also refuse to parse; or the statement after
    a bind that went through. *)
Definition fails_with (r : route) (w : world) (e : error) : Prop :=
  (exists sv, server w = Fails e :: sv) \/
  (tenant_scoped r = true /\
   (fst (Pg.answer (bind_text r) (server w)) = Fails e \/
    (Pg.parses (bind_text r) = true /\
     exists rs sv, server w = Rows rs :: Fails e :: sv))).

(** A running example: one idle connection, the clock at 100, a token
    issued at 50 for an hour. *)
Definition sample_world : world :=
  mkWorld "s3cr3t" None 100%N [mkConn 0 None] [] 1 1 [] 200 None [].

Definition alice : principal :=
  mkPrincipal (VStr "u1") (VStr "a@x.com") 50%N 3650%N.

Definition sample_token : string :=
  match Jwt.sign (VStr "u1") (VStr "a@x.com") "s3cr3t" 3600%N 50%N with
  | Ok t => t
  | Threw _ => ""
  end.

(** The same world once the sample token has expired. *)
Definition late_world : world :=
  mkWorld "s3cr3t" None 4000%N [mkConn 0 None] [] 1 1 [] 200 None [].

(** A uniqueness violation as pg reports it. *)
Definition duplicate_email : error :=
  mkError "error"
    "duplicate key value violates unique constraint family_members_email_key"
    (Some "23505").

(** The row the login statement finds for [a@x.com], whose password is
    [secret]. *)
Definition stored_user : row :=
  [("id", VStr "u1"); ("email", VStr "a@x.com"); ("full_name", VStr "A");
   ("password_hash", VStr (Bcrypt.hash_with "salt" "secret"));
   ("plan_type", VStr "free")].

Definition login_request (password : string) : request :=
  mkRequest None None VUndefined []
    [("email", VStr "a@x.com"); ("password", VStr password)].

Definition request_with (header : option string) : request :=
  mkRequest header None (VStr "7") [] [].

Definition sample_request : request :=
  request_with (Some ("Bearer " ++ sample_token)).

(** A users table, not in order. *)
Definition sample_users : list row :=
  [[("id", VStr "u1"); ("created_at", VNum 10)];
   [("id", VStr "u2"); ("created_at", VNum 30)];
   [("id", VStr "u3"); ("created_at", VNum 20)]].

(** The sample world with a database whose second, respectively first,
    statement raises. *)
Definition failing_insert : world :=
  set_server [Rows []; Fails duplicate_email] sample_world.

Definition failing_bind : world :=
  set_server [Fails duplicate_email] sample_world.

(** The sample pool after its one client has been handed out. *)
Definition checked_out (w : world) : world :=
  emit (Connect 0) (set_pool [] [mkConn 0 None] 1 1 w).

(* ================================================================== *)
(** * routes/users.routes.js: creating and updating users *)
(* ================================================================== *)

(** Modelled from the spec: [bcrypt.hash(data, 10)] of the bcrypt
    package, with the salt the call draws given from outside.  A missing
    plaintext and one that is not a string are refused. *)
Definition bcrypt_hash (salt : string) (data : value) : M string :=
  match data with
  | VStr d => ret (Bcrypt.hash_with salt d)
  | VUndefined | VNull =>
      throw (mkError "Error" "data and salt arguments required" None)
  | _ =>
      throw (mkError "Error"
               "data must be a string or Buffer and salt must either be a salt string or a number of rounds"
               None)
  end.

(** [v || null] *)
Definition or_null (v : value) : value := if truthy v then v else VNull.

(** [usersRouter.post("/users", ...)]; [salt] is what [bcrypt.hash]
    draws. *)
Definition post_users (salt : string) (req : request) : M unit :=
  try_catch
    (let email := get "email" (body req) in
     let password := get "password" (body req) in
     let full_name := get "full_name" (body req) in
     let avatar_url := get "avatar_url" (body req) in
     let plan_type := get "plan_type" (body req) in
     existing <- Pg.pool_query "SELECT id FROM users WHERE email = $1" [email] ;;
     match existing with
     | _ :: _ => res_status 400 ;; res_json (error_body "Email already exists")
     | [] =>
         password_hash <- bcrypt_hash salt password ;;
         rows <- Pg.pool_query
           "INSERT INTO users (email, password_hash, full_name, avatar_url, plan_type) VALUES ($1, $2, $3, $4, $5) RETURNING id, email, full_name"
           [email; VStr password_hash; or_null full_name; or_null avatar_url;
            or_null plan_type] ;;
         res_json (JObj [("user", first_row rows)])
     end)
    (fun err =>
       console_error err ;;
       res_status 500 ;; res_json (error_body "Internal server error")).

Definition update_user_statement : string :=
  "UPDATE public.users SET email = COALESCE($1, email), full_name = COALESCE($2, full_name), password_hash = CASE WHEN $3 IS NOT NULL THEN $3 ELSE password_hash END, avatar_url = COALESCE($4, avatar_url) WHERE id = $5 RETURNING *".

(** [err.code === k] *)
Definition has_code (k : string) (err : error) : bool :=
  match code err with
  | Some c => String.eqb c k
  | None => false
  end.

(** [usersRouter.put("/users/:id", ...)] *)
Definition put_users_id (salt : string) (req : request) : M unit :=
  let id := params_id req in
  let email := get "email" (body req) in
  let full_name := get "full_name" (body req) in
  let password := get "password" (body req) in
  let avatar_url := get "avatar_url" (body req) in
  try_catch
    (hashed <- (if truthy password
                then h <- bcrypt_hash salt password ;; ret (VStr h)
                else ret VNull) ;;
     rows <- Pg.pool_query update_user_statement
       [email; full_name; hashed; avatar_url; id] ;;
     match rows with
     | [] => res_status 404 ;; res_json (error_body "User not found")
     | _ :: _ => res_json (first_row rows)
     end)
    (fun err =>
       if has_code "23505" err then
         res_status 400 ;; res_json (error_body "Email already exists")
       else
         console_error err ;;
         res_status 500 ;; res_json (error_body "Internal server error")).

(* ================================================================== *)
(** * Further vocabulary *)
(* ================================================================== *)

(** [v === text] *)
Definition is_text (text : string) (v : value) : bool :=
  match v with
  | VStr s => String.eqb s text
  | _ => false
  end.

(** Tenant-scoped handlers whose [try] has no [catch]. *)
Definition uncaught (r : route) : bool := tenant_scoped r && negb (catches r).

(** A pool with nothing idle that may not grow. *)
Definition exhausted (w : world) : Prop := idle w = [] /\ capacity w = 0.

(** A world whose one idle connection still carries [u1]'s binding. *)
Definition stale_world : world :=
  mkWorld "s3cr3t" None 100%N [mkConn 0 (Some (VStr "u1"))] [] 1 1 [] 200 None [].

Definition bob : principal :=
  mkPrincipal (VStr "u2") (VStr "b@x.com") 50%N 3650%N.

(** The sample world with a pool that has run dry. *)
Definition dry_world : world :=
  mkWorld "s3cr3t" None 100%N [] [] 0 1 [] 200 None [].

Definition signup_request : request :=
  mkRequest None None VUndefined []
    [("email", VStr "c@x.com"); ("password", VStr "hunter2");
     ("full_name", VStr "")].

Definition update_request (fields : row) : request :=
  mkRequest None None (VStr "u1") [] fields.

(** Every handler of the routes files: the routes above and the two of
    users.routes.js that draw a salt. *)
Inductive endpoint : Type :=
| Routed (r : route)
| POST_users
| PUT_users_id.

Definition endpoint_handler (salt : string) (ep : endpoint)
  : request -> M unit :=
  match ep with
  | Routed r => handler r
  | POST_users => post_users salt
  | PUT_users_id => put_users_id salt
  end.

(** Handlers with a [catch] clause. *)
Definition has_catch (ep : endpoint) : bool :=
  match ep with
  | Routed r => catches r
  | POST_users | PUT_users_id => true
  end.

(** A statement of the handler raises [e]: for a route as in
    [fails_with]; in POST /users the lookup, or the insert after a
    lookup that found nothing and a password that could be hashed; in
    PUT /users/:id the update, reached when the password is left out or
    can be hashed. *)
Definition storage_fails (ep : endpoint) (req : request) (w : world)
  (e : error) : Prop :=
  match ep with
  | Routed r => fails_with r w e
  | POST_users =>
      (exists sv, server w = Fails e :: sv) \/
      (exists sv s, server w = Rows [] :: Fails e :: sv /\
                    get "password" (body req) = VStr s)
  | PUT_users_id =>
      (exists sv, server w = Fails e :: sv) /\
      (truthy (get "password" (body req)) = false \/
       exists s, get "password" (body req) = VStr s)
  end.

(** The users table of the running example, inside a database. *)
Definition sample_database : database :=
  fun table => if String.eqb table "public.users" then sample_users else [].

(* ------------------------------------------------------------------ *)
(** ** Facts about strings *)

Lemma nibble_digit (b0 b1 b2 b3 : bool) :
  Hex.nibble (Hex.digit b0 b1 b2 b3) = Some (b0, b1, b2, b3).
Proof. destruct b0, b1, b2, b3; reflexivity. Qed.

Lemma hex_decode_encode (s : string) : Hex.decode (Hex.encode s) = Some s.
Proof.
  induction s as [|c s IH]; [reflexivity|].
  destruct c as [b0 b1 b2 b3 b4 b5 b6 b7].
  cbn [Hex.encode Hex.decode].
  now rewrite !nibble_digit, IH.
Qed.

Lemma digit_is_digit (b0 b1 b2 b3 : bool) :
  Hex.is_digit (Hex.digit b0 b1 b2 b3) = true.
Proof. unfold Hex.is_digit. now rewrite nibble_digit. Qed.

Lemma free_of_app (c : ascii) (s t : string) :
  free_of c (s ++ t) = free_of c s && free_of c t.
Proof.
  induction s as [|a s IH]; [reflexivity|].
  cbn. now rewrite IH, andb_assoc.
Qed.

Lemma hex_free_of (c : ascii) (s : string) :
  Hex.is_digit c = false -> free_of c (Hex.encode s) = true.
Proof.
  intros Hc. induction s as [|a s IH]; [reflexivity|].
  destruct a as [b0 b1 b2 b3 b4 b5 b6 b7]. cbn [Hex.encode free_of].
  rewrite IH, andb_true_r.
  assert (H : forall x0 x1 x2 x3,
             Ascii.eqb (Hex.digit x0 x1 x2 x3) c = false).
  { intros. destruct (Ascii.eqb_spec (Hex.digit x0 x1 x2 x3) c) as [E|]; auto.
    rewrite <- E, digit_is_digit in Hc. discriminate. }
  now rewrite !H.
Qed.

Lemma split_nonempty (sep : ascii) (s : string) : split sep s <> [].
Proof.
  destruct s as [|c s]; cbn; [discriminate|].
  destruct (Ascii.eqb c sep); [discriminate|].
  destruct (split sep s); discriminate.
Qed.

Lemma split_free (sep : ascii) (s : string) :
  free_of sep s = true -> split sep s = [s].
Proof.
  induction s as [|c s IH]; [reflexivity|].
  cbn. destruct (Ascii.eqb c sep); cbn; [discriminate|].
  intros H. now rewrite IH.
Qed.

(** The first part of [s ++ sep ++ t] is [s] when [s] has no separator. *)
Lemma split_app (sep : ascii) (s t : string) :
  free_of sep s = true ->
  split sep (s ++ String sep t) = s :: split sep t.
Proof.
  induction s as [|c s IH]; cbn.
  - now rewrite Ascii.eqb_refl.
  - destruct (Ascii.eqb c sep); cbn; [discriminate|].
    intros H. now rewrite IH.
Qed.

(* ------------------------------------------------------------------ *)
(** ** Facts about the token format *)

Lemma undec_dec_N (n : N) : undec_N (dec_N n) = Some n.
Proof.
  unfold undec_N, dec_N.
  now rewrite NilEmpty.usu; cbn; rewrite DecimalN.Unsigned.of_to.
Qed.

Lemma undec_dec_Z (z : Z) : undec_Z (dec_Z z) = Some z.
Proof.
  unfold undec_Z, dec_Z.
  now rewrite NilEmpty.isi; cbn; rewrite DecimalZ.of_to.
Qed.

Lemma decode_encode_claim (v : value) :
  Jwt.decode_claim (Jwt.encode_claim v) = Some v.
Proof.
  destruct v as [| |[]|z|s]; try reflexivity; cbn.
  - now rewrite hex_decode_encode, undec_dec_Z.
  - now rewrite hex_decode_encode.
Qed.

Lemma decode_encode_time (n : N) : Jwt.decode_time (Jwt.encode_time n) = Some n.
Proof.
  unfold Jwt.decode_time, Jwt.encode_time.
  now rewrite hex_decode_encode, undec_dec_N.
Qed.

Lemma separator_not_digit (c : ascii) :
  separator c = true -> Hex.is_digit c = false.
Proof.
  unfold separator. destruct (Hex.is_digit c); [discriminate|reflexivity].
Qed.

Lemma claim_free_of (c : ascii) (v : value) :
  separator c = true -> free_of c (Jwt.encode_claim v) = true.
Proof.
  intros Hc. pose proof (separator_not_digit c Hc) as Hd.
  unfold separator in Hc. rewrite Hd in Hc. cbn in Hc.
  rewrite !(Ascii.eqb_sym c) in Hc.
  destruct (Ascii.eqb "u" c) eqn:Eu; [discriminate|].
  destruct (Ascii.eqb "n" c) eqn:En; [discriminate|].
  destruct (Ascii.eqb "t" c) eqn:Et; [discriminate|].
  destruct (Ascii.eqb "i" c) eqn:Ei; [discriminate|].
  destruct (Ascii.eqb "s" c) eqn:Es; [discriminate|].
  assert (Ef : Ascii.eqb "f" c = false).
  { destruct (Ascii.eqb_spec "f"%char c) as [<-|]; [discriminate|reflexivity]. }
  destruct v as [| |[]|z|s]; cbn [Jwt.encode_claim free_of append];
    rewrite ?Eu, ?En, ?Et, ?Ei, ?Es, ?Ef; cbn [negb andb];
    auto using hex_free_of.
Qed.

Lemma time_free_of (c : ascii) (n : N) :
  separator c = true -> free_of c (Jwt.encode_time n) = true.
Proof. intros Hc. apply hex_free_of, separator_not_digit, Hc. Qed.

Lemma app_assoc_string (a b c : string) : (a ++ b) ++ c = a ++ (b ++ c).
Proof. induction a as [|x a IH]; cbn; [reflexivity|now rewrite IH]. Qed.

Lemma decode_payload_segment (p : principal) :
  Jwt.decode_payload (Jwt.payload_segment p) = Some p.
Proof.
  destruct p as [i e t0 t1].
  unfold Jwt.decode_payload, Jwt.payload_segment; cbn [id email iat exp].
  cbn [append].
  rewrite !split_app by (apply claim_free_of || apply time_free_of; reflexivity).
  rewrite split_free by (apply time_free_of; reflexivity).
  now rewrite !decode_encode_claim, !decode_encode_time.
Qed.

Lemma payload_segment_free_of (c : ascii) (p : principal) :
  separator c = true -> Ascii.eqb "_" c = false ->
  free_of c (Jwt.payload_segment p) = true.
Proof.
  intros Hc Hu. unfold Jwt.payload_segment.
  rewrite !free_of_app, !claim_free_of, !time_free_of by assumption.
  cbn [free_of append andb]. now rewrite Hu.
Qed.

(** What [Jwt.sign] returns, cut at its dots. *)
Lemma split_signed (p : principal) (sg : string) :
  free_of "." sg = true ->
  split "." (Jwt.header_segment ++ "." ++ Jwt.payload_segment p ++ "." ++ sg)
  = [Jwt.header_segment; Jwt.payload_segment p; sg].
Proof.
  intros Hs. cbn [append].
  rewrite split_app by reflexivity.
  rewrite split_app by (apply payload_segment_free_of; reflexivity).
  now rewrite split_free.
Qed.

Lemma signature_free_of (c : ascii) (secret input : string) :
  Hex.is_digit c = false -> free_of c (Jwt.signature secret input) = true.
Proof. intros Hc. now apply hex_free_of. Qed.

Lemma header_segment_cons : exists c r, Jwt.header_segment = String c r.
Proof. do 2 eexists. vm_compute. reflexivity. Qed.

Lemma sign_inv (i e : value) (secret token : string) (ttl now : N) :
  Jwt.sign i e secret ttl now = Ok token ->
  String.eqb secret "" = false /\
  token = Jwt.header_segment ++ "." ++
          Jwt.payload_segment (mkPrincipal i e now (now + ttl)) ++ "." ++
          Jwt.signature secret
            (Jwt.header_segment ++ "." ++
             Jwt.payload_segment (mkPrincipal i e now (now + ttl))).
Proof.
  unfold Jwt.sign. destruct (String.eqb secret ""); [discriminate|].
  cbv zeta. rewrite app_assoc_string.
  change (("." ++ Jwt.payload_segment ?p) ++ ?x)
    with ("." ++ Jwt.payload_segment p ++ x).
  intros H. split; [reflexivity|congruence].
Qed.

Lemma verify_sign (i e : value) (secret token : string) (ttl now now' : N) :
  Jwt.sign i e secret ttl now = Ok token ->
  (now' < now + ttl)%N ->
  Jwt.verify token secret now' = Ok (mkPrincipal i e now (now + ttl)).
Proof.
  intros Hs Hn. apply sign_inv in Hs as [Es ->]. unfold Jwt.verify.
  destruct header_segment_cons as (c & r & Eh).
  replace (String.eqb (Jwt.header_segment ++ _) "") with false
    by (rewrite Eh; reflexivity).
  rewrite split_signed by (apply signature_free_of; reflexivity).
  rewrite decode_payload_segment, Es, String.eqb_refl. cbn [negb exp].
  apply N.leb_gt in Hn. now rewrite Hn.
Qed.

Lemma signed_free_of_space (i e : value) (secret token : string) (ttl now : N) :
  Jwt.sign i e secret ttl now = Ok token -> free_of " " token = true.
Proof.
  intros Hs. apply sign_inv in Hs as [_ ->].
  rewrite !free_of_app.
  rewrite payload_segment_free_of, signature_free_of by reflexivity.
  reflexivity.
Qed.

Lemma bearer_header (token : string) :
  free_of " " token = true ->
  well_formed ("Bearer " ++ token) = true /\
  nth 1 (split " " ("Bearer " ++ token)) "" = token.
Proof.
  intros H. unfold well_formed.
  change ("Bearer " ++ token) with ("Bearer" ++ String " " token).
  rewrite split_app by reflexivity. rewrite split_free by assumption.
  split; reflexivity.
Qed.

Lemma auth_pass (req : request) (next : request -> M unit) (w : world)
      (h : string) (p : principal) :
  authorization req = Some h -> h <> "" -> well_formed h = true ->
  Jwt.verify (nth 1 (split " " h) "") (JWT_SECRET w) (clock w) = Ok p ->
  authMiddleware req next w
  = next (set_user p req) (emit (Verify (nth 1 (split " " h) "")) w).
Proof.
  intros Ha Hne Hwf Hv. unfold authMiddleware. rewrite Ha.
  destruct (String.eqb_spec h ""); [contradiction|].
  rewrite Hwf. cbn [negb]. unfold jwt_verify. now rewrite Hv.
Qed.

(* ------------------------------------------------------------------ *)
(** ** Running a handler on a world that is known in part *)

Lemma take_head (c : nat) (u : option value) (l : list conn) :
  Pg.take c (mkConn c u :: l) = Some (mkConn c u, l).
Proof. cbn. now rewrite Nat.eqb_refl. Qed.

Lemma query_head c u l text params s t clk i cap fr sv st se tr :
  Pg.query c text params (mkWorld s t clk i (mkConn c u :: l) cap fr sv st se tr)
  = match Pg.answer text sv with
    | (Fails e, sv') =>
        (Threw e,
         mkWorld s t clk i (mkConn c u :: l) cap fr sv' st se
           (Query c text params u :: tr))
    | (Rows rs, sv') =>
        (Ok rs,
         mkWorld s t clk i (Pg.session_effect text params (mkConn c u) :: l)
           cap fr sv' st se (Query c text params u :: tr))
    end.
Proof.
  unfold Pg.query. cbn [leased server]. rewrite take_head.
  destruct (Pg.answer text sv) as [[rs|e] sv']; reflexivity.
Qed.

Lemma release_head c u l s t clk i cap fr sv st se tr :
  Pg.release c (mkWorld s t clk i (mkConn c u :: l) cap fr sv st se tr)
  = (Ok tt,
     mkWorld s t clk (mkConn c u :: i) l cap fr sv st se (Release c :: tr)).
Proof. unfold Pg.release. cbn [leased]. now rewrite take_head. Qed.

Lemma remove_head c u l s t clk i cap fr sv st se tr :
  Pg.remove c (mkWorld s t clk i (mkConn c u :: l) cap fr sv st se tr)
  = (Ok tt, mkWorld s t clk i l (S cap) fr sv st se (Remove c :: tr)).
Proof. unfold Pg.remove. cbn [leased]. now rewrite take_head. Qed.

(** The two ways [pool.connect()] succeeds. *)
Lemma connect_inv (w w1 : world) (c : nat) :
  Pg.connect w = (Ok c, w1) ->
  (exists u rest, idle w = mkConn c u :: rest /\
     w1 = emit (Connect c)
            (set_pool rest (mkConn c u :: leased w) (capacity w) (fresh w) w))
  \/
  (exists cap, idle w = [] /\ capacity w = S cap /\ c = fresh w /\
     w1 = emit (Connect c)
            (set_pool [] (mkConn c None :: leased w) cap (S (fresh w)) w)).
Proof.
  unfold Pg.connect. destruct (idle w) as [|[c0 u0] rest] eqn:Ei.
  - destruct (capacity w) as [|cap] eqn:Ec; [discriminate|].
    intros [= <- <-]. right. now exists cap.
  - cbn [cid]. intros [= <- <-]. left. now exists u0, rest.
Qed.

Ltac expose :=
  cbv [emit set_pool set_leased set_server set_response JWT_SECRET
       JWT_EXPIRES_IN clock idle leased capacity fresh server statusCode
       sent trace].

Ltac run :=
  cbv [handler get_profile put_profile get_family post_family put_family_id
       delete_family_id get_reminders post_reminders
       patch_reminders_id_complete get_notifications
       patch_notifications_id_read get_users post_login Pg.pool_query
       try_catch_finally try_finally try_catch bind];
  cbn;
  repeat (expose;
          first [rewrite query_head | rewrite release_head | rewrite remove_head];
          cbn).

(** The tenant-scoped routes, one case each; the world and the request
    are taken apart and the client is the one [pool.connect()] gave. *)
Ltac enter w req Hc :=
  destruct w as [sec ttl clk idl lsd cap fr srv st se tr];
  destruct req as [hdr usr pid qry bdy];
  unfold Pg.connect in Hc; cbn in Hc;
  destruct idl as [|[c0 u0] rest]; [destruct cap|];
  inversion Hc; subst; clear Hc.

(* ================================================================== *)
(** * Tenant-Context Data Access Layer *)
(* ================================================================== *)

(** C5.  In every tenant-scoped handler, once the client is checked out
    it is released exactly once on every path, whatever the database
    answers and so also when the bind or a later statement raises: the
    trace gains one [Release] of that client, the set of clients handed
    out is what it was, the pool holds as many connections as before,
    and when the handler ends by throwing, the release is the last thing
    that happened before the error reached the caller. *)
Theorem released_exactly_once
  (r : route) (req : request) (w w1 : world) (c : nat) :
  tenant_scoped r = true ->
  Pg.connect w = (Ok c, w1) ->
  releases c (trace (snd (handler r req w))) = S (releases c (trace w)) /\
  leased (snd (handler r req w)) = leased w /\
  length (idle (snd (handler r req w))) + capacity (snd (handler r req w))
    = length (idle w) + capacity w /\
  (forall e, fst (handler r req w) = Threw e ->
             hd_error (trace (snd (handler r req w))) = Some (Release c)).
Proof.
  intros Hr Hc. enter w req Hc;
    destruct r; try discriminate Hr; clear Hr;
    destruct usr as [p|];
    destruct srv as [|[rs|e] [|[rs'|e'] sv]];
    destruct se as [j|];
    run; unfold releases; cbn [filter is_release trace length];
    rewrite ?Nat.eqb_refl; cbn [length];
    repeat split; auto; try lia; intros; discriminate.
Qed.

(** C6.  In every tenant-scoped handler, when the statement that binds
    the caller's id raises, the request is over: the bind is the only
    statement that ran on the client (the database has been asked
    nothing else), and the handler either rethrows the error without
    having answered or answers with an error status. *)
Theorem bind_failure_is_fatal
  (r : route) (req : request) (w w1 : world) (c : nat)
  (p : principal) (e : error) (sv : list outcome) :
  tenant_scoped r = true ->
  user req = Some p ->
  sent w = None ->
  Pg.connect w = (Ok c, w1) ->
  server w = Fails e :: sv ->
  (exists bound,
     queries (trace (snd (handler r req w)))
     = Query c (bind_text r) (bind_params r (id p)) bound :: queries (trace w)) /\
  server (snd (handler r req w)) = sv /\
  ((fst (handler r req w) = Threw e /\ sent (snd (handler r req w)) = None) \/
   (fst (handler r req w) = Ok tt /\
    exists st msg,
      response (snd (handler r req w)) = Some (st, error_body msg) /\
      400 <= st)).
Proof.
  intros Hr Hu Hs Hc Hsv. enter w req Hc; cbn in Hu, Hs, Hsv; subst;
    destruct r; try discriminate Hr; clear Hr;
    run; unfold queries; cbn [filter is_query trace];
    (split; [eexists; reflexivity|]); (split; [reflexivity|]);
    first [ left; split; reflexivity
          | right; split; [reflexivity|];
            do 2 eexists; split; [reflexivity|lia] ].
Qed.

Lemma released_exactly_once_witness :
  releases 0
    (trace (snd (handler POST_reminders (set_user alice sample_request)
                   failing_insert)))
  = S (releases 0 (trace failing_insert)) /\
  leased (snd (handler POST_reminders (set_user alice sample_request)
                 failing_insert))
  = leased failing_insert /\
  length (idle (snd (handler POST_reminders (set_user alice sample_request)
                       failing_insert)))
  + capacity (snd (handler POST_reminders (set_user alice sample_request)
                     failing_insert))
  = length (idle failing_insert) + capacity failing_insert /\
  (forall e,
     fst (handler POST_reminders (set_user alice sample_request)
            failing_insert) = Threw e ->
     hd_error
       (trace (snd (handler POST_reminders (set_user alice sample_request)
                      failing_insert))) = Some (Release 0)).
Proof.
  apply (released_exactly_once POST_reminders
           (set_user alice sample_request) failing_insert
           (checked_out failing_insert) 0).
  - reflexivity.
  - reflexivity.
Defined.

Lemma bind_failure_is_fatal_witness :
  (exists bound,
     queries (trace (snd (handler GET_family (set_user alice sample_request)
                            failing_bind)))
     = Query 0 (bind_text GET_family) (bind_params GET_family (id alice)) bound
       :: queries (trace failing_bind)) /\
  server (snd (handler GET_family (set_user alice sample_request)
                 failing_bind)) = [] /\
  ((fst (handler GET_family (set_user alice sample_request) failing_bind)
    = Threw duplicate_email /\
    sent (snd (handler GET_family (set_user alice sample_request)
                 failing_bind)) = None) \/
   (fst (handler GET_family (set_user alice sample_request) failing_bind)
    = Ok tt /\
    exists st msg,
      response (snd (handler GET_family (set_user alice sample_request)
                       failing_bind)) = Some (st, error_body msg) /\
      400 <= st)).
Proof.
  apply (bind_failure_is_fatal GET_family (set_user alice sample_request)
           failing_bind (checked_out failing_bind) 0 alice
           duplicate_email []).
  - reflexivity.
  - reflexivity.
  - reflexivity.
  - reflexivity.
  - reflexivity.
Defined.

(* ------------------------------------------------------------------ *)
(** ** What release leaves on the connection *)



(* ------------------------------------------------------------------ *)
(** ** Marking one row *)

(** [rows[0]] of no rows is [undefined], which [res.json] sends as an
    empty payload. *)
Lemma no_row_is_an_empty_payload :
  first_row [] = JVal VUndefined /\ empty_payload (first_row []) = true.
Proof. split; reflexivity. Qed.

(** C10.  [PATCH /reminders/:id/complete] and
    [PATCH /notifications/:id/read] send [rows[0]] as it is, which for
    an update that matched nothing would be an empty payload under
    status 200.  The update is never reached: for the principal [u1]
    and the id 7, which no row has, the bind is the only statement
    sent, the database refuses to parse it, and the handler throws its
    error when the client has been released; nothing is written to the
    response. *)
Theorem patch_stops_at_the_bind :
  fst (serve PATCH_reminders_id_complete sample_request sample_world)
  = Threw Pg.syntax_error /\
  response (snd (serve PATCH_reminders_id_complete sample_request sample_world))
  = None /\
  trace (snd (serve PATCH_reminders_id_complete sample_request sample_world))
  = [Release 0;
     Query 0 "SET app.current_user_id = $1" [VStr "u1"] None;
     Connect 0; Verify sample_token] /\
  fst (serve PATCH_notifications_id_read sample_request sample_world)
  = Threw Pg.syntax_error /\
  response (snd (serve PATCH_notifications_id_read sample_request sample_world))
  = None /\
  trace (snd (serve PATCH_notifications_id_read sample_request sample_world))
  = [Release 0;
     Query 0 "SET app.current_user_id = $1" [VStr "u1"] None;
     Connect 0; Verify sample_token].
Proof. repeat split; vm_compute; reflexivity. Qed.

(* ================================================================== *)
(** * Storage failures at the handler boundary *)
(* ================================================================== *)

(** The clients of [pool.query], one case each. *)
Ltac enter_pool w req Hc :=
  destruct w as [sec ttl clk idl lsd cap fr srv st se tr];
  destruct req as [hdr usr pid qry bdy];
  unfold Pg.connect in Hc; cbn in Hc;
  destruct idl as [|[c0 u0] rest]; [destruct cap|];
  inversion Hc; subst; clear Hc.

Ltac run_users := cbv [post_users put_users_id bcrypt_hash]; run.

(** C9, as the code has it.  In a handler that has a [catch] clause, a
    statement that raises [e] is answered as follows: [GET /profile],
    [PUT /profile], [GET /reminders], [GET /users], [POST /login] and
    [POST /users] answer 500 with a fixed message of their own;
    [PUT /users/:id] answers 400 with a fixed message when [e] has the
    code 23505 and 500 with a fixed message otherwise; [POST /family]
    answers 400 with the message of [e]. *)
Theorem storage_failure_response
  (salt : string) (ep : endpoint) (req : request) (w w1 : world) (c : nat)
  (e : error) :
  has_catch ep = true ->
  (forall r, ep = Routed r -> tenant_scoped r = true -> user req <> None) ->
  fresh_response w ->
  Pg.connect w = (Ok c, w1) ->
  storage_fails ep req w e ->
  fst (endpoint_handler salt ep req w) = Ok tt /\
  response (snd (endpoint_handler salt ep req w))
  = Some match ep with
         | Routed POST_family => (400, error_body (message e))
         | Routed GET_profile => (500, error_body "Failed to fetch profile")
         | Routed PUT_profile => (500, error_body "Failed to update profile")
         | PUT_users_id =>
             if has_code "23505" e
             then (400, error_body "Email already exists")
             else (500, error_body "Internal server error")
         | _ => (500, error_body "Internal server error")
         end.
Proof.
  intros Hr Hu [Hst Hse] Hc Hf. destruct ep as [r| |].
  - assert (Hu' : tenant_scoped r = true -> user req <> None)
      by (intros Ht; exact (Hu r eq_refl Ht)).
    clear Hu. cbn [endpoint_handler has_catch storage_fails] in *.
    enter w req Hc; cbn in Hst, Hse, Hu'; subst;
      destruct r; try discriminate Hr; clear Hr;
      (destruct usr as [p|];
       [clear Hu'|try (exfalso; apply Hu'; reflexivity)]);
      (destruct Hf as [[sv Hsv]|[Ht [Hb|[Hp (rs & sv & Hsv)]]]];
       [ cbn in Hsv; subst; run; split; reflexivity
       | try discriminate Ht;
         destruct srv as [|[rs|e0] sv]; cbn in Hb;
         try discriminate Hb; injection Hb as <-; run; split; reflexivity
       | try discriminate Ht; try discriminate Hp;
         cbn in Hsv; subst; run; split; reflexivity ]).
  - cbn [endpoint_handler storage_fails] in *.
    enter_pool w req Hc; cbn in Hst, Hse; subst;
      (destruct Hf as [[sv Hsv]|(sv & s & Hsv & Hpw)];
       [ cbn in Hsv; subst; run_users; split; reflexivity
       | cbn in Hsv, Hpw; subst; run_users; rewrite Hpw; run_users;
         split; reflexivity ]).
  - cbn [endpoint_handler storage_fails] in *.
    destruct Hf as [[sv Hsv] Hpw].
    enter_pool w req Hc; cbn in Hst, Hse, Hsv, Hpw; subst;
      (destruct Hpw as [Hpw|[s Hpw]];
       [ run_users; rewrite Hpw; run_users
       | run_users; rewrite Hpw; destruct s; run_users ];
       destruct (has_code "23505" e); run; split; reflexivity).
Qed.

Lemma storage_failure_response_witness :
  fst (endpoint_handler "salt" (Routed GET_profile)
         (set_user alice sample_request) sample_world) = Ok tt /\
  response
    (snd (endpoint_handler "salt" (Routed GET_profile)
            (set_user alice sample_request) sample_world))
  = Some (500, error_body "Failed to fetch profile").
Proof.
  apply (storage_failure_response "salt" (Routed GET_profile)
           (set_user alice sample_request) sample_world
           (checked_out sample_world) 0 Pg.syntax_error).
  - reflexivity.
  - discriminate.
  - split; reflexivity.
  - reflexivity.
  - right. split; [reflexivity|]. left. reflexivity.
Defined.

(** C9, as stated, fails.  [POST /family] for the principal [u1], on a
    database with nothing special to say: the bind is refused as a
    syntax error, and the answer is 400 and carries the database's
    text. *)
Lemma family_post_exposes_database_error :
  response (snd (serve POST_family sample_request sample_world))
  = Some (400, error_body (message Pg.syntax_error)) /\
  mentions (message Pg.syntax_error) (error_body (message Pg.syntax_error))
  = true /\
  ~ generic_server_error
      (response (snd (serve POST_family sample_request sample_world)))
      Pg.syntax_error.
Proof.
  split; [vm_compute; reflexivity|]. split; [vm_compute; reflexivity|].
  intros (st & body & Hr & Hst & _). vm_compute in Hr.
  injection Hr as <- _. lia.
Qed.

(* ================================================================== *)
(** * Token Service *)
(* ================================================================== *)

(** C8.  A token issued for the claims [i] (id) and [e] (email), whatever
    the time to live, verifies under the same secret at any time before
    its expiry, and the payload recovered carries exactly [i] and [e]. *)
Theorem verify_recovers_issued_fields
  (i e : value) (w w' : world) (token : string) :
  fst (jwt_sign i e w) = Ok token ->
  JWT_SECRET w' = JWT_SECRET w ->
  (clock w' < clock w + expires_in w)%N ->
  exists p, fst (jwt_verify token w') = Ok p /\ id p = i /\ email p = e.
Proof.
  unfold jwt_sign, jwt_verify. cbn [fst]. intros Hs Hk Hn.
  exists (mkPrincipal i e (clock w) (clock w + expires_in w)).
  rewrite Hk. split; [|split; reflexivity].
  now apply verify_sign.
Qed.

Lemma verify_recovers_issued_fields_witness :
  exists p, fst (jwt_verify sample_token sample_world) = Ok p /\
            id p = VStr "u1" /\ email p = VStr "a@x.com".
Proof.
  apply (verify_recovers_issued_fields (VStr "u1") (VStr "a@x.com")
           (mkWorld "s3cr3t" (Some 3600%N) 50%N [] [] 0 0 [] 200 None [])
           sample_world sample_token).
  - reflexivity.
  - reflexivity.
  - reflexivity.
Defined.

(** A token issued at login is accepted by the middleware before its
    expiry, and the handler behind it sees the id and the email it was
    issued for in [req.user]. *)
Lemma issued_token_authenticates
  (i e : value) (w w' : world) (token : string)
  (req : request) (next : request -> M unit) :
  fst (jwt_sign i e w) = Ok token ->
  JWT_SECRET w' = JWT_SECRET w ->
  (clock w' < clock w + expires_in w)%N ->
  authorization req = Some ("Bearer " ++ token) ->
  authMiddleware req next w'
  = next (set_user (mkPrincipal i e (clock w) (clock w + expires_in w)) req)
      (emit (Verify token) w').
Proof.
  unfold jwt_sign. cbn [fst]. intros Hs Hk Hn Ha.
  destruct (bearer_header token (signed_free_of_space _ _ _ _ _ _ Hs))
    as [Hwf Ht].
  rewrite (auth_pass req next w' _
             (mkPrincipal i e (clock w) (clock w + expires_in w)) Ha);
    rewrite ?Ht; auto.
  - discriminate.
  - rewrite Hk. now apply verify_sign.
Qed.

(* ================================================================== *)
(** * Principal Extraction Middleware *)
(* ================================================================== *)

(** C3, as the code has it.  A token that fails verification is answered
    with status 401 and the body [{ error: "Invalid token: " + message }]
    where [message] is the verifier's own, and the handler is not run.
    Status and shape are the same for every failure; the text is not. *)
Theorem invalid_token_response
  (req : request) (next : request -> M unit) (w : world)
  (h : string) (e : error) :
  authorization req = Some h -> h <> "" -> well_formed h = true ->
  sent w = None ->
  Jwt.verify (nth 1 (split " " h) "") (JWT_SECRET w) (clock w) = Threw e ->
  authMiddleware req next w
  = (Ok tt,
     set_response 401 (Some (error_body ("Invalid token: " ++ message e)))
       (emit (Verify (nth 1 (split " " h) "")) w)).
Proof.
  intros Ha Hne Hwf Hs Hv. unfold authMiddleware. rewrite Ha.
  destruct (String.eqb_spec h ""); [contradiction|].
  rewrite Hwf. cbn [negb]. unfold jwt_verify. rewrite Hv.
  unfold unauthorized, bind, res_status, res_json. cbn. now rewrite Hs.
Qed.

Lemma invalid_token_response_witness :
  authMiddleware (request_with (Some "Bearer garbage")) (handler GET_family)
    sample_world
  = (Ok tt,
     set_response 401 (Some (error_body "Invalid token: jwt malformed"))
       (emit (Verify "garbage") sample_world)).
Proof.
  apply (invalid_token_response (request_with (Some "Bearer garbage"))
           (handler GET_family) sample_world "Bearer garbage"
           (Jwt.JsonWebTokenError "jwt malformed")).
  - reflexivity.
  - discriminate.
  - reflexivity.
  - reflexivity.
  - reflexivity.
Defined.

(** C3, as stated, fails: a malformed token and an expired one are both
    refused, for different reasons, and the two responses differ. *)
Lemma failure_reason_is_visible :
  Jwt.verify "garbage" (JWT_SECRET late_world) (clock late_world)
    = Threw (Jwt.JsonWebTokenError "jwt malformed") /\
  Jwt.verify sample_token (JWT_SECRET late_world) (clock late_world)
    = Threw Jwt.TokenExpiredError /\
  response (snd (serve GET_family (request_with (Some "Bearer garbage"))
                   late_world))
  <> response (snd (serve GET_family sample_request late_world)).
Proof. repeat split; [vm_compute; reflexivity ..|]. vm_compute. discriminate. Qed.

Lemma split_single_inv (sep : ascii) (s b : string) :
  split sep s = [b] -> s = b /\ free_of sep b = true.
Proof.
  revert b. induction s as [|c s IH]; cbn; intros b.
  - intros [= <-]. split; reflexivity.
  - destruct (Ascii.eqb c sep) eqn:E.
    + intros H. injection H as _ H. now apply split_nonempty in H.
    + destruct (split sep s) as [|p ps] eqn:Es.
      * now apply split_nonempty in Es.
      * intros [= <- ->]. destruct (IH p eq_refl) as [-> Hf].
        cbn. now rewrite E, Hf.
Qed.

Lemma split_pair_inv (sep : ascii) (s a b : string) :
  split sep s = [a; b] ->
  s = a ++ String sep b /\ free_of sep a = true /\ free_of sep b = true.
Proof.
  revert a. induction s as [|c s IH]; cbn; intros a.
  - discriminate.
  - destruct (Ascii.eqb_spec c sep) as [->|Hne].
    + intros [= <- H]. apply split_single_inv in H as [-> Hf]. auto.
    + destruct (split sep s) as [|p ps] eqn:Es; [discriminate|].
      intros [= <- ->]. destruct (IH p eq_refl) as (-> & Ha & Hb).
      cbn. apply Ascii.eqb_neq in Hne. now rewrite Hne, Ha.
Qed.

(** What Node hands over ends in no space. *)
Lemma trim_end_keeps_no_space (s t : string) : Http.trim_end s <> t ++ " ".
Proof.
  revert t. induction s as [|c s IH]; intros t; cbn.
  - destruct t; discriminate.
  - destruct (Http.trim_end s) as [|k ks] eqn:E.
    + destruct (Http.is_ows c) eqn:Ec.
      * destruct t; discriminate.
      * destruct t as [|a [|b t]]; cbn; try discriminate.
        intros [= ->]. discriminate Ec.
    + destruct t as [|a t]; cbn.
      * discriminate.
      * intros [= _ H]. exact (IH t H).
Qed.

(** A header that passes the format test is [Bearer], a space and a
    part without spaces. *)
Lemma well_formed_inv (h : string) :
  well_formed h = true ->
  exists t, free_of " " t = true /\ h = "Bearer " ++ t.
Proof.
  unfold well_formed. intros H. apply andb_prop in H as [Hl Hk].
  apply Nat.eqb_eq in Hl. apply String.eqb_eq in Hk.
  destruct (split " " h) as [|a [|b [|x l]]] eqn:Es; try discriminate.
  cbn in Hk. subst a. apply split_pair_inv in Es as (-> & _ & Hb).
  exists b. split; auto.
Qed.

(** C4.  A request without the header is answered 401 "Missing
    Authorization header".  A header whose value, as Node hands it over
    (without the white space around it), is not [Bearer], one space and
    a token that is not empty and holds no space, is answered 401:
    "Missing Authorization header" when nothing is left of it, "Invalid
    Authorization header format" otherwise.  That covers the missing
    scheme, the wrong keyword, more than two parts, and the empty token,
    which arrives as [Bearer] alone.  In all of these nothing else
    happens: the trace is what it was, so [jwt.verify] was not called,
    and the handler is not run. *)
Theorem malformed_header_rejected
  (req : request) (next : request -> M unit) (w : world) :
  sent w = None ->
  (authorization req = None ->
   authMiddleware req next w
   = (Ok tt,
      set_response 401 (Some (error_body "Missing Authorization header")) w))
  /\
  (forall raw : string,
     authorization req = Some (Http.received raw) ->
     (forall t : string,
        t <> "" -> free_of " " t = true ->
        Http.received raw <> "Bearer " ++ t) ->
     authMiddleware req next w
     = (Ok tt,
        set_response 401
          (Some (error_body
                   (if String.eqb (Http.received raw) ""
                    then "Missing Authorization header"
                    else "Invalid Authorization header format"))) w)).
Proof.
  intros Hs. split.
  - intros Ha. unfold authMiddleware. rewrite Ha. cbn.
    unfold unauthorized, bind, res_status, res_json; cbn; now rewrite Hs.
  - intros raw Ha Hbad. unfold authMiddleware. rewrite Ha.
    destruct (String.eqb_spec (Http.received raw) "") as [He|Hne].
    + unfold unauthorized, bind, res_status, res_json; cbn; now rewrite Hs.
    + assert (Hwf : well_formed (Http.received raw) = false).
      { destruct (well_formed (Http.received raw)) eqn:E; [|reflexivity].
        exfalso. apply well_formed_inv in E as (t & Hf & Ht).
        destruct t as [|a t].
        - exact (trim_end_keeps_no_space _ "Bearer" Ht).
        - apply (Hbad (String a t)); [discriminate|assumption|assumption]. }
      rewrite Hwf. cbn [negb].
      unfold unauthorized, bind, res_status, res_json; cbn; now rewrite Hs.
Qed.

Lemma malformed_header_rejected_witness :
  authMiddleware (request_with None) (handler GET_family) sample_world
  = (Ok tt,
     set_response 401 (Some (error_body "Missing Authorization header"))
       sample_world)
  /\
  authMiddleware (request_with (Some "Bearer")) (handler GET_family)
    sample_world
  = (Ok tt,
     set_response 401
       (Some (error_body
                (if String.eqb (Http.received "Bearer ") ""
                 then "Missing Authorization header"
                 else "Invalid Authorization header format")))
       sample_world).
Proof.
  split.
  - apply (malformed_header_rejected (request_with None) (handler GET_family)
             sample_world); reflexivity.
  - apply (malformed_header_rejected (request_with (Some "Bearer"))
             (handler GET_family) sample_world).
    + reflexivity.
    + reflexivity.
    + intros t _ _ H. cbn in H. discriminate H.
Defined.

(** The classes of malformed header the specification names. *)
Lemma missing_scheme_is_malformed (h t : string) :
  free_of " " h = true -> h <> "Bearer " ++ t.
Proof. intros H ->. discriminate H. Qed.

Lemma wrong_keyword_is_malformed (k rest t : string) :
  free_of " " k = true -> k <> "Bearer" ->
  k ++ " " ++ rest <> "Bearer " ++ t.
Proof.
  intros Hk Hne E. apply Hne.
  apply (f_equal (fun s => hd "" (split " " s))) in E.
  change (k ++ " " ++ rest) with (k ++ String " " rest) in E.
  change ("Bearer " ++ t) with ("Bearer" ++ String " " t) in E.
  now rewrite !split_app in E.
Qed.

Lemma three_parts_are_malformed (a b c t : string) :
  free_of " " a = true -> free_of " " b = true -> free_of " " t = true ->
  a ++ " " ++ b ++ " " ++ c <> "Bearer " ++ t.
Proof.
  intros Ha Hb Ht E.
  apply (f_equal (fun s => length (split " " s))) in E.
  change (a ++ " " ++ b ++ " " ++ c)
    with (a ++ String " " (b ++ String " " c)) in E.
  change ("Bearer " ++ t) with ("Bearer" ++ String " " t) in E.
  rewrite !split_app in E by (assumption || reflexivity).
  rewrite (split_free _ _ Ht) in E. cbn in E.
  destruct (split " " c) eqn:Ec; [now apply split_nonempty in Ec|].
  discriminate E.
Qed.

Lemma empty_token_is_malformed (t : string) :
  Http.received "Bearer " = "Bearer" /\
  Http.received "Bearer" = "Bearer" /\
  (t <> "" -> "Bearer" <> "Bearer " ++ t).
Proof. repeat split. discriminate. Qed.

Lemma empty_token_is_rejected_unverified :
  authMiddleware (request_with (Some (Http.received "Bearer ")))
    (handler GET_family) sample_world
  = (Ok tt,
     set_response 401 (Some (error_body "Invalid Authorization header format"))
       sample_world).
Proof. reflexivity. Qed.

(* ================================================================== *)
(** * The users listing *)
(* ================================================================== *)

(* ------------------------------------------------------------------ *)
(** ** Ordering of the users listing *)









(** The sample database answers the listing with its three users,
    newest first. *)
Lemma sample_listing :
  Sql.select sample_database
    "SELECT * FROM public.users ORDER BY created_at DESC"
  = Some [[("id", VStr "u2"); ("created_at", VNum 30)];
          [("id", VStr "u3"); ("created_at", VNum 20)];
          [("id", VStr "u1"); ("created_at", VNum 10)]].
Proof. reflexivity. Qed.

(* ================================================================== *)
(** * Login *)
(* ================================================================== *)

(** A hash verifies against the plaintext it was made from. *)
Lemma compare_hash_with (salt plaintext : string) :
  Bcrypt.compare plaintext (Bcrypt.hash_with salt plaintext) = true.
Proof.
  unfold Bcrypt.compare, Bcrypt.hash_with.
  change ("$2b$" ++ ?x) with ("" ++ String "$" ("2b" ++ String "$" x)).
  rewrite split_app by reflexivity.
  rewrite split_app by reflexivity.
  change (Hex.encode salt ++ "$" ++ ?d)
    with (Hex.encode salt ++ String "$" d).
  rewrite split_app by (now apply hex_free_of).
  unfold Bcrypt.digest. rewrite split_free by (now apply hex_free_of).
  rewrite hex_decode_encode. apply String.eqb_refl.
Qed.

(** C7.  [POST /login] when the database has a user for the email, with
    a stored hash, and the body carries a password.  If the hash matches
    the password the answer is 200 with a token signed for the user's id
    and email and a user object that has neither a [password] nor a
    [password_hash] field; if it does not, the answer is 400 "Invalid
    email or password", and there is no token in it. *)
Theorem login_outcomes
  (req : request) (w w1 : world) (c : nat) (user : row) (others : list row)
  (sv : list outcome) (password hashed : string) :
  fresh_response w ->
  Pg.connect w = (Ok c, w1) ->
  server w = Rows (user :: others) :: sv ->
  get "password" (body req) = VStr password ->
  get "password_hash" user = VStr hashed ->
  JWT_SECRET w <> "" ->
  (Bcrypt.compare password hashed = true ->
   exists token profile,
     Jwt.sign (get "id" user) (get "email" user) (JWT_SECRET w)
       (expires_in w) (clock w) = Ok token /\
     response (snd (post_login req w))
     = Some (200, JObj [("token", JVal (VStr token)); ("user", profile)]) /\
     keys profile = ["id"; "email"; "full_name"; "plan_type"] /\
     has_key "password" profile = false /\
     has_key "password_hash" profile = false)
  /\
  (Bcrypt.compare password hashed = false ->
   response (snd (post_login req w))
   = Some (400, error_body "Invalid email or password") /\
   has_key "token" (error_body "Invalid email or password") = false).
Proof.
  intros [Hst Hse] Hc Hsv Hpw Hh Hk.
  destruct w as [sec ttl clk idl lsd cap fr srv st se tr].
  destruct req as [hdr usr pid qry bdy].
  cbn in Hst, Hse, Hsv, Hpw, Hk. subst.
  apply String.eqb_neq in Hk.
  unfold Pg.connect in Hc; cbn in Hc.
  split; intros Hm;
    (destruct idl as [|[c0 u0] rest]; [destruct cap|];
     inversion Hc; subst; clear Hc;
     run; rewrite Hpw, Hh; cbn; rewrite Hm; cbn;
     unfold jwt_sign, Jwt.sign; cbn; rewrite ?Hk; cbn).
  1,2: do 2 eexists; repeat split; reflexivity.
  1,2: split; reflexivity.
Qed.

Lemma login_outcomes_witness :
  (exists token profile,
     response (snd (post_login (login_request "secret")
                      (set_server [Rows [stored_user]] sample_world)))
     = Some (200, JObj [("token", JVal (VStr token)); ("user", profile)]) /\
     has_key "password" profile = false /\
     has_key "password_hash" profile = false)
  /\
  response (snd (post_login (login_request "Secret")
                   (set_server [Rows [stored_user]] sample_world)))
  = Some (400, error_body "Invalid email or password").
Proof.
  split.
  - destruct (login_outcomes (login_request "secret")
                (set_server [Rows [stored_user]] sample_world)
                (emit (Connect 0)
                   (set_pool [] [mkConn 0 None] 1 1
                      (set_server [Rows [stored_user]] sample_world)))
                0 stored_user [] [] "secret"
                (Bcrypt.hash_with "salt" "secret")) as [Hyes _].
    + split; reflexivity.
    + reflexivity.
    + reflexivity.
    + reflexivity.
    + reflexivity.
    + discriminate.
    + destruct Hyes as (token & profile & _ & Hr & _ & Hp & Hh).
      * vm_compute. reflexivity.
      * exists token, profile. auto.
  - apply (login_outcomes (login_request "Secret")
             (set_server [Rows [stored_user]] sample_world)
             (emit (Connect 0)
                (set_pool [] [mkConn 0 None] 1 1
                   (set_server [Rows [stored_user]] sample_world)))
             0 stored_user [] [] "Secret"
             (Bcrypt.hash_with "salt" "secret")).
    + split; reflexivity.
    + reflexivity.
    + reflexivity.
    + reflexivity.
    + reflexivity.
    + discriminate.
    + vm_compute. reflexivity.
Defined.

(* ================================================================== *)
(** * Further properties of the middleware *)
(* ================================================================== *)

(** X1.  The format test of the middleware lets a header through
    exactly when it is [Bearer], one space, and a token that holds no
    space (the token may be empty); that token is what goes to
    [jwt.verify]. *)
Theorem header_passes_iff_bearer_token (h : string) :
  well_formed h = true <->
  exists token : string,
    free_of " " token = true /\ h = "Bearer " ++ token /\
    nth 1 (split " " h) "" = token.
Proof.
  split.
  - unfold well_formed. intros H. apply andb_prop in H as [Hl Hk].
    apply Nat.eqb_eq in Hl. apply String.eqb_eq in Hk.
    destruct (split " " h) as [|a [|b [|x l]]] eqn:Es; try discriminate.
    cbn in Hk. subst a. apply split_pair_inv in Es as (-> & _ & Hb).
    exists b. repeat split; auto.
  - intros (token & Hf & -> & _). now destruct (bearer_header token Hf).
Qed.

(** X2.  On a protected route, a request whose header carries no token
    that verifies is answered 401 by the middleware alone: the handler
    is not run, no client is checked out, no statement reaches the
    database. *)
Theorem unverified_request_stops_at_middleware
  (r : route) (req : request) (w : world) :
  protected r = true ->
  sent w = None ->
  (forall h p, authorization req = Some h ->
     Jwt.verify (nth 1 (split " " h) "") (JWT_SECRET w) (clock w) <> Ok p) ->
  fst (serve r req w) = Ok tt /\
  (exists msg, response (snd (serve r req w)) = Some (401, error_body msg)) /\
  idle (snd (serve r req w)) = idle w /\
  leased (snd (serve r req w)) = leased w /\
  server (snd (serve r req w)) = server w /\
  queries (trace (snd (serve r req w))) = queries (trace w).
Proof.
  intros Hp Hs Hv. unfold serve. rewrite Hp. unfold authMiddleware.
  destruct (authorization req) as [h|] eqn:Ha.
  - destruct (String.eqb h ""); [|destruct (well_formed h)]; cbn [negb].
    + unfold unauthorized, bind, res_status, res_json, response; cbn;
        rewrite Hs; cbn; eauto 10.
    + unfold jwt_verify.
      destruct (Jwt.verify (nth 1 (split " " h) "") (JWT_SECRET w) (clock w))
        as [p|e] eqn:Ev.
      * now destruct (Hv h p eq_refl).
      * unfold unauthorized, bind, res_status, res_json, response; cbn;
          rewrite Hs; cbn; eauto 10.
    + unfold unauthorized, bind, res_status, res_json, response; cbn;
        rewrite Hs; cbn; eauto 10.
  - unfold unauthorized, bind, res_status, res_json, response; cbn;
      rewrite Hs; cbn; eauto 10.
Qed.

Lemma unverified_request_stops_at_middleware_witness :
  fst (serve GET_profile sample_request late_world) = Ok tt /\
  (exists msg,
     response (snd (serve GET_profile sample_request late_world))
     = Some (401, error_body msg)) /\
  idle (snd (serve GET_profile sample_request late_world)) = idle late_world /\
  leased (snd (serve GET_profile sample_request late_world))
  = leased late_world /\
  server (snd (serve GET_profile sample_request late_world))
  = server late_world /\
  queries (trace (snd (serve GET_profile sample_request late_world)))
  = queries (trace late_world).
Proof.
  apply (unverified_request_stops_at_middleware GET_profile sample_request
           late_world).
  - reflexivity.
  - reflexivity.
  - intros h p [= <-]. vm_compute. discriminate.
Defined.

(* ================================================================== *)
(** * Further properties of login *)
(* ================================================================== *)

(** X3.  The token a successful login answers with opens every
    protected route: sent back as [Bearer <token>] under the same secret
    and before its expiry, it passes the middleware, and the handler
    runs with [req.user] carrying the id and the email of the row the
    login found. *)
Theorem login_token_opens_protected_routes
  (req : request) (w w1 : world) (c : nat) (user : row) (others : list row)
  (sv : list outcome) (password hashed : string) :
  fresh_response w ->
  Pg.connect w = (Ok c, w1) ->
  server w = Rows (user :: others) :: sv ->
  get "password" (body req) = VStr password ->
  get "password_hash" user = VStr hashed ->
  Bcrypt.compare password hashed = true ->
  JWT_SECRET w <> "" ->
  exists token profile,
    response (snd (post_login req w))
    = Some (200, JObj [("token", JVal (VStr token)); ("user", profile)]) /\
    forall (r : route) (req' : request) (w' : world),
      protected r = true ->
      authorization req' = Some ("Bearer " ++ token) ->
      JWT_SECRET w' = JWT_SECRET w ->
      (clock w' < clock w + expires_in w)%N ->
      exists p,
        serve r req' w' = handler r (set_user p req') (emit (Verify token) w') /\
        id p = get "id" user /\ email p = get "email" user.
Proof.
  intros [Hst Hse] Hc Hsv Hpw Hh Hm Hk.
  destruct (Jwt.sign (get "id" user) (get "email" user) (JWT_SECRET w)
              (expires_in w) (clock w)) as [token|e] eqn:Hsign.
  2: { unfold Jwt.sign in Hsign. apply String.eqb_neq in Hk.
       rewrite Hk in Hsign. discriminate. }
  exists token.
  exists (JObj [("id", JVal (get "id" user));
                ("email", JVal (get "email" user));
                ("full_name", JVal (get "full_name" user));
                ("plan_type", JVal (get "plan_type" user))]).
  split.
  - unfold expires_in in Hsign.
    enter_pool w req Hc;
      cbn [JWT_SECRET JWT_EXPIRES_IN clock statusCode sent server body]
        in Hst, Hse, Hsv, Hpw, Hsign; subst;
      run; rewrite Hpw, Hh; cbn; rewrite Hm; cbn;
      unfold jwt_sign, expires_in;
      cbn [JWT_SECRET JWT_EXPIRES_IN clock]; rewrite Hsign; reflexivity.
  - intros r req' w' Hp Ha Hk' Hn.
    exists (mkPrincipal (get "id" user) (get "email" user) (clock w)
              (clock w + expires_in w)).
    split; [|split; reflexivity].
    unfold serve. rewrite Hp.
    now apply issued_token_authenticates with (w := w).
Qed.

Lemma login_token_opens_protected_routes_witness :
  exists token profile,
    response (snd (post_login (login_request "secret")
                     (set_server [Rows [stored_user]] sample_world)))
    = Some (200, JObj [("token", JVal (VStr token)); ("user", profile)]) /\
    forall (r : route) (req' : request) (w' : world),
      protected r = true ->
      authorization req' = Some ("Bearer " ++ token) ->
      JWT_SECRET w' = "s3cr3t" ->
      (clock w' < 100 + 86400)%N ->
      exists p,
        serve r req' w' = handler r (set_user p req') (emit (Verify token) w') /\
        id p = VStr "u1" /\ email p = VStr "a@x.com".
Proof.
  apply (login_token_opens_protected_routes (login_request "secret")
           (set_server [Rows [stored_user]] sample_world)
           (checked_out (set_server [Rows [stored_user]] sample_world))
           0 stored_user [] [] "secret" (Bcrypt.hash_with "salt" "secret")).
  - split; reflexivity.
  - reflexivity.
  - reflexivity.
  - reflexivity.
  - reflexivity.
  - vm_compute. reflexivity.
  - discriminate.
Defined.

(** X4.  Login does not tell an unknown email from a wrong password:
    when the statement finds no row, and when it finds one whose hash
    does not match, the response is the same 400 "Invalid email or
    password". *)
Theorem unknown_email_answers_like_wrong_password
  (req req' : request) (w w1 w' w1' : world) (c c' : nat)
  (user : row) (others : list row) (sv sv' : list outcome)
  (password hashed : string) :
  fresh_response w -> Pg.connect w = (Ok c, w1) ->
  server w = Rows [] :: sv ->
  fresh_response w' -> Pg.connect w' = (Ok c', w1') ->
  server w' = Rows (user :: others) :: sv' ->
  get "password" (body req') = VStr password ->
  get "password_hash" user = VStr hashed ->
  Bcrypt.compare password hashed = false ->
  response (snd (post_login req w)) = response (snd (post_login req' w')) /\
  response (snd (post_login req w))
  = Some (400, error_body "Invalid email or password").
Proof.
  intros [Hst Hse] Hc Hsv [Hst' Hse'] Hc' Hsv' Hpw Hh Hm.
  assert (H1 : response (snd (post_login req w))
               = Some (400, error_body "Invalid email or password")).
  { enter_pool w req Hc; cbn in Hst, Hse, Hsv; subst; run; reflexivity. }
  assert (H2 : response (snd (post_login req' w'))
               = Some (400, error_body "Invalid email or password")).
  { enter_pool w' req' Hc'; cbn in Hst', Hse', Hsv', Hpw; subst;
      run; rewrite Hpw, Hh; cbn; rewrite Hm; cbn; reflexivity. }
  split; congruence.
Qed.

Lemma unknown_email_answers_like_wrong_password_witness :
  response (snd (post_login (login_request "secret")
                   (set_server [Rows []] sample_world)))
  = response (snd (post_login (login_request "Secret")
                     (set_server [Rows [stored_user]] sample_world))) /\
  response (snd (post_login (login_request "secret")
                   (set_server [Rows []] sample_world)))
  = Some (400, error_body "Invalid email or password").
Proof.
  apply (unknown_email_answers_like_wrong_password
           (login_request "secret") (login_request "Secret")
           (set_server [Rows []] sample_world)
           (checked_out (set_server [Rows []] sample_world))
           (set_server [Rows [stored_user]] sample_world)
           (checked_out (set_server [Rows [stored_user]] sample_world))
           0 0 stored_user [] [] [] "Secret"
           (Bcrypt.hash_with "salt" "secret")).
  - split; reflexivity.
  - reflexivity.
  - reflexivity.
  - split; reflexivity.
  - reflexivity.
  - reflexivity.
  - reflexivity.
  - reflexivity.
  - vm_compute. reflexivity.
Defined.

(** X5.  A login whose body has no string under [password], or that
    finds a row with no string under [password_hash], is not answered
    400: [bcrypt.compare] refuses its arguments, the [catch] clause
    logs the error and answers 500 "Internal server error". *)
Theorem login_without_password_answers_500
  (req : request) (w w1 : world) (c : nat) (user : row) (others : list row)
  (sv : list outcome) :
  fresh_response w ->
  Pg.connect w = (Ok c, w1) ->
  server w = Rows (user :: others) :: sv ->
  (forall s, get "password" (body req) <> VStr s) \/
  (forall s, get "password_hash" user <> VStr s) ->
  fst (post_login req w) = Ok tt /\
  response (snd (post_login req w))
  = Some (500, error_body "Internal server error") /\
  exists e, hd_error (trace (snd (post_login req w))) = Some (ConsoleError e).
Proof.
  intros [Hst Hse] Hc Hsv Hbad.
  enter_pool w req Hc; cbn in Hst, Hse, Hsv, Hbad; subst; run;
    (destruct (get "password" bdy) as [| |b|z|s] eqn:Ep;
     destruct (get "password_hash" user) as [| |b'|z'|s'] eqn:Eh;
     try (cbn; repeat split; eexists; reflexivity);
     destruct Hbad as [Hb|Hb]; [now destruct (Hb s)|now destruct (Hb s')]).
Qed.

Lemma login_without_password_answers_500_witness :
  fst (post_login (mkRequest None None VUndefined [] [("email", VStr "a@x.com")])
         (set_server [Rows [stored_user]] sample_world)) = Ok tt /\
  response
    (snd (post_login
            (mkRequest None None VUndefined [] [("email", VStr "a@x.com")])
            (set_server [Rows [stored_user]] sample_world)))
  = Some (500, error_body "Internal server error") /\
  exists e,
    hd_error
      (trace
         (snd (post_login
                 (mkRequest None None VUndefined [] [("email", VStr "a@x.com")])
                 (set_server [Rows [stored_user]] sample_world))))
    = Some (ConsoleError e).
Proof.
  apply (login_without_password_answers_500
           (mkRequest None None VUndefined [] [("email", VStr "a@x.com")])
           (set_server [Rows [stored_user]] sample_world)
           (checked_out (set_server [Rows [stored_user]] sample_world))
           0 stored_user [] []).
  - split; reflexivity.
  - reflexivity.
  - reflexivity.
  - left. intros s. discriminate.
Defined.

(* ================================================================== *)
(** * Creating and updating users *)
(* ================================================================== *)

(** X6.  [POST /users] for an email the first statement already finds:
    the answer is 400 "Email already exists", and that statement is the
    only one sent; nothing is inserted. *)
Theorem signup_refuses_known_email
  (salt : string) (req : request) (w w1 : world) (c : nat)
  (found : row) (others : list row) (sv : list outcome) :
  fresh_response w ->
  Pg.connect w = (Ok c, w1) ->
  server w = Rows (found :: others) :: sv ->
  fst (post_users salt req w) = Ok tt /\
  response (snd (post_users salt req w))
  = Some (400, error_body "Email already exists") /\
  server (snd (post_users salt req w)) = sv /\
  exists bound,
    queries (trace (snd (post_users salt req w)))
    = Query c "SELECT id FROM users WHERE email = $1"
        [get "email" (body req)] bound :: queries (trace w).
Proof.
  intros [Hst Hse] Hc Hsv.
  enter_pool w req Hc; cbn in Hst, Hse, Hsv; subst; run_users;
    repeat split; eexists; reflexivity.
Qed.

(** X7.  [POST /users] for a new email and a string password: the
    insert carries the email, a hash of the password that
    [bcrypt.compare] accepts for it, and the optional fields, each
    replaced by [null] when it is falsy (missing, empty); the answer is 200
    with [{ user: rows[0] }]. *)
Theorem signup_stores_a_hash_that_verifies
  (salt : string) (req : request) (w w1 : world) (c : nat)
  (password : string) (created : list row) (sv : list outcome) :
  fresh_response w ->
  Pg.connect w = (Ok c, w1) ->
  server w = Rows [] :: Rows created :: sv ->
  get "password" (body req) = VStr password ->
  response (snd (post_users salt req w))
  = Some (200, JObj [("user", first_row created)]) /\
  (exists hashed bound bound',
     Bcrypt.compare password hashed = true /\
     queries (trace (snd (post_users salt req w)))
     = Query c
         "INSERT INTO users (email, password_hash, full_name, avatar_url, plan_type) VALUES ($1, $2, $3, $4, $5) RETURNING id, email, full_name"
         [get "email" (body req); VStr hashed;
          or_null (get "full_name" (body req));
          or_null (get "avatar_url" (body req));
          or_null (get "plan_type" (body req))] bound'
       :: Query c "SELECT id FROM users WHERE email = $1"
            [get "email" (body req)] bound
       :: queries (trace w)).
Proof.
  intros [Hst Hse] Hc Hsv Hpw.
  enter_pool w req Hc; cbn in Hst, Hse, Hsv, Hpw; subst;
    run_users; rewrite Hpw; run;
    (split; [reflexivity|]);
    exists (Bcrypt.hash_with salt password); do 2 eexists;
    (split; [apply compare_hash_with|reflexivity]).
Qed.

Lemma signup_refuses_known_email_witness :
  fst (post_users "na" signup_request
         (set_server [Rows [[("id", VStr "u9")]]] sample_world)) = Ok tt /\
  response (snd (post_users "na" signup_request
                   (set_server [Rows [[("id", VStr "u9")]]] sample_world)))
  = Some (400, error_body "Email already exists") /\
  server (snd (post_users "na" signup_request
                 (set_server [Rows [[("id", VStr "u9")]]] sample_world))) = [] /\
  exists bound,
    queries (trace (snd (post_users "na" signup_request
                           (set_server [Rows [[("id", VStr "u9")]]]
                              sample_world))))
    = Query 0 "SELECT id FROM users WHERE email = $1"
        [get "email" (body signup_request)] bound
      :: queries (trace (set_server [Rows [[("id", VStr "u9")]]] sample_world)).
Proof.
  apply (signup_refuses_known_email "na" signup_request
           (set_server [Rows [[("id", VStr "u9")]]] sample_world)
           (checked_out (set_server [Rows [[("id", VStr "u9")]]] sample_world))
           0 [("id", VStr "u9")] [] []).
  - split; reflexivity.
  - reflexivity.
  - reflexivity.
Defined.

Lemma signup_stores_a_hash_that_verifies_witness :
  response (snd (post_users "na" signup_request
                   (set_server [Rows []; Rows [[("id", VStr "u9")]]]
                      sample_world)))
  = Some (200, JObj [("user", first_row [[("id", VStr "u9")]])]).
Proof.
  apply (signup_stores_a_hash_that_verifies "na" signup_request
           (set_server [Rows []; Rows [[("id", VStr "u9")]]] sample_world)
           (checked_out
              (set_server [Rows []; Rows [[("id", VStr "u9")]]] sample_world))
           0 "hunter2" [[("id", VStr "u9")]] []).
  - split; reflexivity.
  - reflexivity.
  - reflexivity.
  - reflexivity.
Defined.

(** X8.  [PUT /users/:id] with a password that is absent, empty or a
    string: what the one statement brings back decides the answer.  No
    row: 404 "User not found".  A row: 200 with that row.  An error with
    code [23505]: 400 "Email already exists".  Any other error: 500
    "Internal server error". *)
Theorem update_user_outcomes
  (salt : string) (req : request) (w w1 : world) (c : nat)
  (o : outcome) (sv : list outcome) :
  fresh_response w ->
  Pg.connect w = (Ok c, w1) ->
  server w = o :: sv ->
  (truthy (get "password" (body req)) = false \/
   exists s, get "password" (body req) = VStr s) ->
  fst (put_users_id salt req w) = Ok tt /\
  response (snd (put_users_id salt req w))
  = Some match o with
         | Rows [] => (404, error_body "User not found")
         | Rows (updated :: _) => (200, json_of_row updated)
         | Fails e =>
             if has_code "23505" e
             then (400, error_body "Email already exists")
             else (500, error_body "Internal server error")
         end.
Proof.
  intros [Hst Hse] Hc Hsv Hpw.
  enter_pool w req Hc; cbn in Hst, Hse, Hsv, Hpw; subst;
    (destruct Hpw as [Hf|[s Hs]];
     [cbv [put_users_id body]; rewrite Hf
     |cbv [put_users_id body]; rewrite Hs; destruct (truthy (VStr s))];
     destruct o as [[|updated rs]|e]; run_users;
     try (split; reflexivity);
     destruct (has_code "23505" e); split; reflexivity).
Qed.

Lemma update_user_outcomes_witness :
  fst (put_users_id "na" (update_request [("email", VStr "a@x.com")])
         (set_server [Fails duplicate_email] sample_world)) = Ok tt /\
  response
    (snd (put_users_id "na" (update_request [("email", VStr "a@x.com")])
            (set_server [Fails duplicate_email] sample_world)))
  = Some (400, error_body "Email already exists").
Proof.
  apply (update_user_outcomes "na" (update_request [("email", VStr "a@x.com")])
           (set_server [Fails duplicate_email] sample_world)
           (checked_out (set_server [Fails duplicate_email] sample_world))
           0 (Fails duplicate_email) []).
  - split; reflexivity.
  - reflexivity.
  - reflexivity.
  - left. reflexivity.
Defined.

(** X9.  The third parameter of the update of [PUT /users/:id] is
    [null] when the body has no password or an empty one, so that the
    stored hash is kept, and otherwise a hash that [bcrypt.compare]
    accepts for the new password. *)
Theorem update_user_password_parameter
  (salt : string) (req : request) (w w1 : world) (c : nat) :
  Pg.connect w = (Ok c, w1) ->
  (truthy (get "password" (body req)) = false ->
   exists bound,
     queries (trace (snd (put_users_id salt req w)))
     = Query c update_user_statement
         [get "email" (body req); get "full_name" (body req); VNull;
          get "avatar_url" (body req); params_id req] bound
       :: queries (trace w)) /\
  (forall s, get "password" (body req) = VStr s -> s <> "" ->
   exists hashed bound,
     Bcrypt.compare s hashed = true /\
     queries (trace (snd (put_users_id salt req w)))
     = Query c update_user_statement
         [get "email" (body req); get "full_name" (body req); VStr hashed;
          get "avatar_url" (body req); params_id req] bound
       :: queries (trace w)).
Proof.
  intros Hc. split.
  - intros Hf.
    enter_pool w req Hc; cbn in Hf; cbv [put_users_id body params_id];
      rewrite Hf; destruct srv as [|[[|r rs]|e] sv]; destruct se as [j|];
      run_users; try (eexists; reflexivity);
      destruct (has_code "23505" e); run; eexists; reflexivity.
  - intros s Hs Hne. apply String.eqb_neq in Hne.
    exists (Bcrypt.hash_with salt s).
    enter_pool w req Hc; cbn in Hs; cbv [put_users_id body params_id];
      rewrite Hs; cbn [truthy]; rewrite Hne; cbn [negb];
      destruct srv as [|[[|r rs]|e] sv]; destruct se as [j|];
      run_users; try (eexists; split; [apply compare_hash_with|reflexivity]);
      destruct (has_code "23505" e); run;
      eexists; (split; [apply compare_hash_with|reflexivity]).
Qed.

Lemma update_user_password_parameter_witness :
  (exists bound,
     queries
       (trace (snd (put_users_id "na"
                      (update_request [("email", VStr "a@x.com")])
                      sample_world)))
     = Query 0 update_user_statement
         [VStr "a@x.com"; VUndefined; VNull; VUndefined; VStr "u1"] bound
       :: queries (trace sample_world)) /\
  (exists hashed bound,
     Bcrypt.compare "hunter2" hashed = true /\
     queries
       (trace (snd (put_users_id "na"
                      (update_request [("password", VStr "hunter2")])
                      sample_world)))
     = Query 0 update_user_statement
         [VUndefined; VUndefined; VStr hashed; VUndefined; VStr "u1"] bound
       :: queries (trace sample_world)).
Proof.
  split.
  - apply (update_user_password_parameter "na"
             (update_request [("email", VStr "a@x.com")]) sample_world
             (checked_out sample_world) 0); reflexivity.
  - apply (update_user_password_parameter "na"
             (update_request [("password", VStr "hunter2")]) sample_world
             (checked_out sample_world) 0) with (s := "hunter2");
      [reflexivity|reflexivity|discriminate].
Defined.

(** X10.  [PUT /users/:id] answers with the row the statement returned,
    column for column: whatever [RETURNING *] brings, [password_hash]
    included, is a key of the response. *)
Theorem update_user_answer_has_every_column
  (salt : string) (req : request) (w w1 : world) (c : nat)
  (updated : row) (others : list row) (sv : list outcome) :
  fresh_response w ->
  Pg.connect w = (Ok c, w1) ->
  server w = Rows (updated :: others) :: sv ->
  (truthy (get "password" (body req)) = false \/
   exists s, get "password" (body req) = VStr s) ->
  exists answer,
    response (snd (put_users_id salt req w)) = Some (200, answer) /\
    keys answer = map fst updated /\
    forall k v, In (k, v) updated -> has_key k answer = true.
Proof.
  intros [Hst Hse] Hc Hsv Hpw. exists (json_of_row updated).
  split; [|split].
  - enter_pool w req Hc; cbn in Hst, Hse, Hsv, Hpw; subst;
      (destruct Hpw as [Hf|[s Hs]];
       [cbv [put_users_id body]; rewrite Hf
       |cbv [put_users_id body]; rewrite Hs; destruct (truthy (VStr s))];
       run_users; reflexivity).
  - unfold json_of_row, keys. rewrite map_map. reflexivity.
  - intros k v Hin. unfold has_key, json_of_row, keys. rewrite map_map.
    apply existsb_exists. exists k. split; [|apply String.eqb_refl].
    apply in_map_iff. now exists (k, v).
Qed.

Lemma update_user_answer_has_every_column_witness :
  exists answer,
    response
      (snd (put_users_id "na" (update_request [("full_name", VStr "B")])
              (set_server [Rows [stored_user]] sample_world)))
    = Some (200, answer) /\
    keys answer = map fst stored_user /\
    forall k v, In (k, v) stored_user -> has_key k answer = true.
Proof.
  apply (update_user_answer_has_every_column "na"
           (update_request [("full_name", VStr "B")])
           (set_server [Rows [stored_user]] sample_world)
           (checked_out (set_server [Rows [stored_user]] sample_world))
           0 stored_user [] []).
  - split; reflexivity.
  - reflexivity.
  - reflexivity.
  - left. reflexivity.
Defined.

(** X11.  [POST /users] and [PUT /users/:id] are registered without the
    middleware and do not look at the caller: the [Authorization] header
    and [req.user] change nothing in what they do, and [jwt.verify] is
    never called on their behalf. *)
Theorem user_writes_ignore_credentials
  (salt : string) (req : request) (w : world)
  (header : option string) (principal : option principal) :
  post_users salt
    (mkRequest header principal (params_id req) (query req) (body req)) w
  = post_users salt req w /\
  put_users_id salt
    (mkRequest header principal (params_id req) (query req) (body req)) w
  = put_users_id salt req w /\
  verifications (trace (snd (post_users salt req w)))
  = verifications (trace w) /\
  verifications (trace (snd (put_users_id salt req w)))
  = verifications (trace w).
Proof.
  destruct req as [hdr usr pid qry bdy].
  split; [reflexivity|split; [reflexivity|]].
  destruct w as [sec ttl clk idl lsd cap fr srv st se tr].
  split.
  - destruct idl as [|[c0 u0] rest]; [destruct cap|];
      destruct srv as [|[[|r rs]|e] [|[rs'|e'] sv]];
      destruct se as [j|];
      cbv [post_users body]; destruct (get "password" bdy) as [| |b|z|s];
      run_users; reflexivity.
  - destruct idl as [|[c0 u0] rest]; [destruct cap|];
      destruct srv as [|[[|r rs]|e] sv];
      destruct se as [j|];
      cbv [put_users_id body];
      destruct (get "password" bdy) as [| |[]|z|s];
      cbn [truthy]; try destruct (Z.eqb z 0); try destruct (String.eqb s "");
      cbn [negb]; run_users; try reflexivity;
      destruct (has_code "23505" e); run; reflexivity.
Qed.

(* ================================================================== *)
(** * Further properties of the tenant-scoped handlers *)
(* ================================================================== *)

(** X12.  When [pool.connect()] rejects, a tenant-scoped handler, with
    or without a [catch] clause, rethrows: the call stands before the
    [try], so the caller gets no response, nothing is logged, and there
    is nothing to release. *)
Theorem checkout_failure_is_not_answered
  (r : route) (req : request) (w : world) :
  tenant_scoped r = true ->
  exhausted w ->
  exists e, handler r req w = (Threw e, w).
Proof.
  intros Hr [Hi Hc].
  destruct w as [sec ttl clk idl lsd cap fr srv st se tr].
  cbn in Hi, Hc. subst.
  destruct r; try discriminate Hr; eexists; reflexivity.
Qed.

Lemma checkout_failure_is_not_answered_witness :
  exists e, handler GET_profile (set_user alice sample_request) dry_world
            = (Threw e, dry_world).
Proof.
  apply (checkout_failure_is_not_answered GET_profile
           (set_user alice sample_request) dry_world).
  - reflexivity.
  - split; reflexivity.
Defined.

(** X13.  The handlers that go through [pool.query] inside their [try]
    ([GET /users], [POST /login], [POST /users]) answer a rejected
    checkout with 500 "Internal server error" and log the error. *)
Theorem checkout_failure_in_pool_query_is_answered
  (salt : string) (req : request) (w : world) :
  fresh_response w ->
  exhausted w ->
  (exists e,
     get_users req w
     = (Ok tt,
        set_response 500 (Some (error_body "Internal server error"))
          (emit (ConsoleError e) w))) /\
  (exists e,
     post_login req w
     = (Ok tt,
        set_response 500 (Some (error_body "Internal server error"))
          (emit (ConsoleError e) w))) /\
  (exists e,
     post_users salt req w
     = (Ok tt,
        set_response 500 (Some (error_body "Internal server error"))
          (emit (ConsoleError e) w))).
Proof.
  intros [Hst Hse] [Hi Hc].
  destruct w as [sec ttl clk idl lsd cap fr srv st se tr].
  cbn in Hst, Hse, Hi, Hc. subst.
  repeat split; eexists; reflexivity.
Qed.

Lemma checkout_failure_in_pool_query_is_answered_witness :
  (exists e,
     get_users sample_request dry_world
     = (Ok tt,
        set_response 500 (Some (error_body "Internal server error"))
          (emit (ConsoleError e) dry_world))) /\
  (exists e,
     post_login sample_request dry_world
     = (Ok tt,
        set_response 500 (Some (error_body "Internal server error"))
          (emit (ConsoleError e) dry_world))) /\
  (exists e,
     post_users "na" sample_request dry_world
     = (Ok tt,
        set_response 500 (Some (error_body "Internal server error"))
          (emit (ConsoleError e) dry_world))).
Proof.
  apply (checkout_failure_in_pool_query_is_answered "na" sample_request
           dry_world); split; reflexivity.
Defined.

(** X14.  A tenant-scoped handler whose [try] has no [catch] ([GET
    /family], [PUT] and [DELETE /family/:id], [POST /reminders], the two
    [PATCH] routes, [GET /notifications]) does not answer a statement
    that raises: it releases the client and rethrows the database's
    error as it is, and the response is left unwritten. *)
Theorem uncaught_storage_failure_is_rethrown
  (r : route) (req : request) (w w1 : world) (c : nat)
  (p : principal) (e : error) :
  uncaught r = true ->
  user req = Some p ->
  sent w = None ->
  Pg.connect w = (Ok c, w1) ->
  fails_with r w e ->
  fst (handler r req w) = Threw e /\
  sent (snd (handler r req w)) = None /\
  statusCode (snd (handler r req w)) = statusCode w /\
  hd_error (trace (snd (handler r req w))) = Some (Release c).
Proof.
  intros Hr Hu Hs Hc Hf.
  enter w req Hc; cbn in Hu, Hs; subst;
    destruct r; try discriminate Hr; clear Hr;
    (destruct Hf as [[sv Hsv]|[_ [Hb|[Hp _]]]];
     [ cbn in Hsv; subst; run; repeat split; reflexivity
     | destruct srv as [|[rs|e0] sv]; cbn in Hb; injection Hb as <-;
       run; repeat split; reflexivity
     | discriminate Hp ]).
Qed.

Lemma uncaught_storage_failure_is_rethrown_witness :
  fst (handler GET_family (set_user alice sample_request) sample_world)
  = Threw Pg.syntax_error /\
  sent (snd (handler GET_family (set_user alice sample_request)
               sample_world)) = None /\
  statusCode (snd (handler GET_family (set_user alice sample_request)
                     sample_world)) = statusCode sample_world /\
  hd_error (trace (snd (handler GET_family (set_user alice sample_request)
                          sample_world))) = Some (Release 0).
Proof.
  apply (uncaught_storage_failure_is_rethrown GET_family
           (set_user alice sample_request) sample_world
           (checked_out sample_world) 0 alice Pg.syntax_error).
  - reflexivity.
  - reflexivity.
  - reflexivity.
  - reflexivity.
  - right. split; [reflexivity|]. left. reflexivity.
Defined.

(** X15.  A handler that binds with [SET] never gets past the bind,
    whatever the database holds: the database refuses to parse the
    statement, unless it has failed before for a reason of its own.
    The bind is the only statement sent on the client, the statement
    the route is there for is not sent, and the handler rethrows the
    error without having answered or answers with an error status. *)
Theorem set_bind_is_never_accepted
  (r : route) (req : request) (w w1 : world) (c : nat) (p : principal) :
  tenant_scoped r = true -> r <> GET_reminders ->
  user req = Some p ->
  sent w = None ->
  Pg.connect w = (Ok c, w1) ->
  exists e bound,
    (e = Pg.syntax_error \/ exists sv, server w = Fails e :: sv) /\
    queries (trace (snd (handler r req w)))
    = Query c "SET app.current_user_id = $1" [id p] bound
      :: queries (trace w) /\
    ((fst (handler r req w) = Threw e /\ sent (snd (handler r req w)) = None) \/
     (fst (handler r req w) = Ok tt /\
      exists st msg,
        response (snd (handler r req w)) = Some (st, error_body msg) /\
        400 <= st)).
Proof.
  intros Hr Hn Hu Hs Hc. enter w req Hc; cbn in Hu, Hs; subst;
    destruct r; try discriminate Hr; try contradiction; clear Hr Hn;
    (destruct srv as [|[rs|e] sv];
     [ exists Pg.syntax_error | exists Pg.syntax_error | exists e ];
     run; unfold queries; cbn [filter is_query trace];
     eexists; (split; [first [left; reflexivity | right; eexists; reflexivity]|]);
     (split; [reflexivity|]);
     first [ left; split; reflexivity
           | right; split; [reflexivity|];
             do 2 eexists; split; [reflexivity|lia] ]).
Qed.

Lemma set_bind_is_never_accepted_witness :
  exists e bound,
    (e = Pg.syntax_error \/
     exists sv, server (set_server [Rows []; Rows []] sample_world)
                = Fails e :: sv) /\
    queries
      (trace (snd (handler DELETE_family_id (set_user alice sample_request)
                     (set_server [Rows []; Rows []] sample_world))))
    = Query 0 "SET app.current_user_id = $1" [id alice] bound
      :: queries (trace (set_server [Rows []; Rows []] sample_world)) /\
    ((fst (handler DELETE_family_id (set_user alice sample_request)
             (set_server [Rows []; Rows []] sample_world)) = Threw e /\
      sent (snd (handler DELETE_family_id (set_user alice sample_request)
                   (set_server [Rows []; Rows []] sample_world))) = None) \/
     (fst (handler DELETE_family_id (set_user alice sample_request)
             (set_server [Rows []; Rows []] sample_world)) = Ok tt /\
      exists st msg,
        response
          (snd (handler DELETE_family_id (set_user alice sample_request)
                  (set_server [Rows []; Rows []] sample_world)))
        = Some (st, error_body msg) /\
        400 <= st)).
Proof.
  apply (set_bind_is_never_accepted DELETE_family_id
           (set_user alice sample_request)
           (set_server [Rows []; Rows []] sample_world)
           (checked_out (set_server [Rows []; Rows []] sample_world))
           0 alice).
  - reflexivity.
  - discriminate.
  - reflexivity.
  - reflexivity.
  - reflexivity.
Defined.

(** X16.  [GET /reminders] binds with [set_config(_, _, true)] outside
    a transaction, so the binding is gone when the next statement runs:
    its [SELECT] runs under whatever the connection carried when it was
    checked out, also when that is another principal's id. *)
Theorem reminders_listing_runs_under_the_old_binding
  (req : request) (w : world) (c : nat) (u : option value)
  (rest : list conn) (p : principal) (rs : list row) (sv : list outcome) :
  idle w = mkConn c u :: rest ->
  user req = Some p ->
  server w = Rows rs :: sv ->
  exists text params,
    queries (trace (snd (get_reminders req w)))
    = Query c text params u
      :: Query c "SELECT set_config($1, $2, true)"
           [VStr "app.current_user_id"; id p] u
      :: queries (trace w).
Proof.
  intros Hi Hu Hsv.
  destruct w as [sec ttl clk idl lsd cap fr srv st se tr].
  destruct req as [hdr usr pid qry bdy]. cbn in Hi, Hu, Hsv. subst.
  destruct sv as [|[rs'|e'] sv]; destruct se as [j|]; run;
    do 2 eexists; reflexivity.
Qed.

Lemma reminders_listing_runs_under_the_old_binding_witness :
  exists text params,
    queries (trace (snd (get_reminders (set_user bob sample_request)
                           (set_server [Rows []] stale_world))))
    = Query 0 text params (Some (VStr "u1"))
      :: Query 0 "SELECT set_config($1, $2, true)"
           [VStr "app.current_user_id"; id bob] (Some (VStr "u1"))
      :: queries (trace (set_server [Rows []] stale_world)).
Proof.
  apply (reminders_listing_runs_under_the_old_binding
           (set_user bob sample_request) (set_server [Rows []] stale_world)
           0 (Some (VStr "u1")) [] bob [] []).
  - reflexivity.
  - reflexivity.
  - reflexivity.
Defined.

(* ================================================================== *)
(** * Pagination and filtering of the reminders listing *)
(* ================================================================== *)

Ltac read_digit :=
  match goal with
  | |- context [ParseInt.digit_in 10 ?c] =>
      let v := eval vm_compute in (ParseInt.digit_in 10 c) in
      change (ParseInt.digit_in 10 c) with v; cbv iota beta
  end.

Lemma digits_from_positive (d : Decimal.uint) (p : positive) :
  ParseInt.digits 10 (NilEmpty.string_of_uint d) (Some (Zpos p))
  = Some (Zpos (Pos.of_uint_acc d p)).
Proof.
  revert p. induction d; intros p; cbn [NilEmpty.string_of_uint Pos.of_uint_acc];
    [reflexivity|..];
    cbn -[Z.mul Z.add Pos.mul Pos.add]; read_digit;
    match goal with
    | |- ParseInt.digits _ _ (Some ?x) = Some (Zpos (Pos.of_uint_acc _ ?q)) =>
        replace x with (Zpos q) by lia
    end; apply IHd.
Qed.

Lemma digits_from_zero (d : Decimal.uint) :
  ParseInt.digits 10 (NilEmpty.string_of_uint d) (Some 0%Z)
  = Some (Z.of_N (Pos.of_uint d)).
Proof.
  induction d; cbn [NilEmpty.string_of_uint Pos.of_uint];
    [reflexivity|..];
    cbn -[Z.mul Z.add Pos.mul Pos.add Pos.of_uint Z.of_N]; read_digit;
    cbn [Z.mul Z.add Z.of_N]; first [apply IHd | apply digits_from_positive].
Qed.

Lemma digits_of_numeral (d : Decimal.uint) :
  d <> Decimal.Nil ->
  ParseInt.digits 10 (NilEmpty.string_of_uint d) None
  = Some (Z.of_N (Pos.of_uint d)).
Proof.
  intros Hd. destruct d; [contradiction|..];
    cbn [NilEmpty.string_of_uint Pos.of_uint];
    cbn -[Z.mul Z.add Pos.mul Pos.add Pos.of_uint Z.of_N]; read_digit;
    cbn [Z.mul Z.add Z.of_N];
    first [apply digits_from_zero | apply digits_from_positive].
Qed.

Lemma unsigned_of_numeral (d : Decimal.uint) :
  d <> Decimal.Nil ->
  ParseInt.unsigned (NilEmpty.string_of_uint d) = Some (Z.of_uint d).
Proof.
  intros Hd. unfold Z.of_uint. rewrite <- (digits_of_numeral d Hd).
  destruct d; [contradiction|..]; try reflexivity.
  destruct d; reflexivity.
Qed.

Lemma to_int_numeral (z : Z) :
  match Z.to_int z with
  | Decimal.Pos d | Decimal.Neg d => d <> Decimal.Nil
  end.
Proof.
  destruct z; cbn; try apply DecimalPos.Unsigned.to_uint_nonnil. discriminate.
Qed.

(** Nothing is trimmed before a byte of the ASCII range that is no
    white space. *)
Lemma trim_start_low (a : ascii) (s : string) :
  ParseInt.ascii_space a = false -> nat_of_ascii a < 194 ->
  ParseInt.trim_start (String a s) = String a s.
Proof.
  intros Hs Hlow. cbn [ParseInt.trim_start]. rewrite Hs.
  assert (H2 : forall b, ParseInt.two_byte_space a b = false).
  { intros b. unfold ParseInt.two_byte_space.
    replace (Nat.eqb (nat_of_ascii a) 194) with false; [reflexivity|].
    symmetry. apply Nat.eqb_neq. lia. }
  assert (H3 : forall b c, ParseInt.three_byte_space a b c = false).
  { intros b c. unfold ParseInt.three_byte_space.
    replace (Nat.eqb (nat_of_ascii a) 225) with false
      by (symmetry; apply Nat.eqb_neq; lia).
    replace (Nat.eqb (nat_of_ascii a) 226) with false
      by (symmetry; apply Nat.eqb_neq; lia).
    replace (Nat.eqb (nat_of_ascii a) 227) with false
      by (symmetry; apply Nat.eqb_neq; lia).
    replace (Nat.eqb (nat_of_ascii a) 239) with false
      by (symmetry; apply Nat.eqb_neq; lia).
    reflexivity. }
  destruct s as [|b [|c s]]; rewrite ?H2, ?H3; reflexivity.
Qed.

Lemma round_safe (z : Z) : Js.safe z -> Js.round z = Js.Finite z.
Proof.
  unfold Js.safe, Js.round. intros H. apply Z.ltb_lt in H. now rewrite H.
Qed.

(** [parseInt] reads back what [String] prints of an integer, rounded
    to a double. *)
Lemma parseInt_of_decimal (z : Z) :
  ParseInt.parseInt (VStr (dec_Z z)) = Js.round z.
Proof.
  unfold ParseInt.parseInt, dec_Z.
  rewrite <- (DecimalZ.of_to z) at 2.
  pose proof (to_int_numeral z) as Hn.
  destruct (Z.to_int z) as [d|d]; cbn [NilEmpty.string_of_int Z.of_int].
  - assert (E : ParseInt.of_string (NilEmpty.string_of_uint d)
                = ParseInt.to_number
                    (ParseInt.unsigned (NilEmpty.string_of_uint d))).
    { destruct d; [contradiction|..]; cbn [NilEmpty.string_of_uint];
        unfold ParseInt.of_string;
        (rewrite trim_start_low; [reflexivity|reflexivity|cbn; lia]). }
    rewrite E, (unsigned_of_numeral d Hn). reflexivity.
  - unfold ParseInt.of_string.
    rewrite trim_start_low; [|reflexivity|cbn; lia].
    rewrite (unsigned_of_numeral d Hn). reflexivity.
Qed.

Lemma or_default_of_decimal (z fallback : Z) :
  z <> 0%Z -> Js.safe z ->
  ParseInt.or_default (VStr (dec_Z z)) fallback = Js.Finite z.
Proof.
  intros Hz Hs. unfold ParseInt.or_default.
  rewrite parseInt_of_decimal, (round_safe z Hs).
  apply Z.eqb_neq in Hz. cbn [Js.or_else]. now rewrite Hz.
Qed.

(** White space beyond ASCII is skipped too, and a number too long for
    a double is rounded. *)
Lemma parseInt_examples :
  ParseInt.parseInt (VStr (String "194" (String "160" "7"))) = Js.Finite 7 /\
  ParseInt.parseInt (VStr "9007199254740993") = Js.Finite 9007199254740992 /\
  ParseInt.parseInt (VStr " -0x1F") = Js.Finite (-31) /\
  ParseInt.parseInt (VStr "12px") = Js.Finite 12 /\
  ParseInt.parseInt (VStr "many") = Js.NaN.
Proof. repeat split; vm_compute; reflexivity. Qed.

(** X19.  [GET /reminders] with [page] and [limit] given as the decimal
    text of two integers other than 0, and no [completed], where both,
    [page - 1] and the offset are integers a double holds exactly: the
    listing is asked for with [LIMIT limit OFFSET (page - 1) * limit],
    and the answer echoes both numbers.  Neither is checked for its
    sign: a negative page or limit goes to the database as it is. *)
Theorem reminders_page_and_limit
  (req : request) (w w1 : world) (c : nat) (p : principal)
  (page limit : Z) (rs found : list row) (sv : list outcome) :
  user req = Some p ->
  fresh_response w ->
  Pg.connect w = (Ok c, w1) ->
  server w = Rows rs :: Rows found :: sv ->
  get "page" (query req) = VStr (dec_Z page) ->
  get "limit" (query req) = VStr (dec_Z limit) ->
  get "completed" (query req) = VUndefined ->
  page <> 0%Z -> limit <> 0%Z ->
  Js.safe page -> Js.safe limit ->
  Js.safe (page - 1) -> Js.safe ((page - 1) * limit) ->
  response (snd (get_reminders req w))
  = Some (200, JObj [("page", JVal (VNum page));
                     ("limit", JVal (VNum limit));
                     ("reminders", json_of_rows found)]) /\
  exists bound bound',
    queries (trace (snd (get_reminders req w)))
    = Query c
        "SELECT * FROM reminders  ORDER BY due_date ASC LIMIT $1 OFFSET $2"
        [VNum limit; VNum ((page - 1) * limit)] bound'
      :: Query c "SELECT set_config($1, $2, true)"
           [VStr "app.current_user_id"; id p] bound
      :: queries (trace w).
Proof.
  intros Hu [Hst Hse] Hc Hsv Hp Hl Hf Hp0 Hl0 Sp Sl Sp1 So.
  enter w req Hc; cbn in Hu, Hst, Hse, Hsv, Hp, Hl, Hf; subst;
    cbv [get_reminders query]; rewrite Hp, Hl, Hf;
    rewrite !or_default_of_decimal by assumption;
    change (Js.sub (Js.Finite page) (Js.Finite 1))
      with (Js.round (page - 1));
    rewrite (round_safe _ Sp1);
    change (Js.mul (Js.Finite (page - 1)) (Js.Finite limit))
      with (Js.round ((page - 1) * limit));
    rewrite (round_safe _ So);
    run; (split; [reflexivity|]); do 2 eexists; reflexivity.
Qed.

Lemma reminders_page_and_limit_witness :
  response
    (snd (get_reminders
            (mkRequest None (Some alice) VUndefined
               [("page", VStr "3"); ("limit", VStr "10")] [])
            (set_server [Rows []; Rows []] sample_world)))
  = Some (200, JObj [("page", JVal (VNum 3));
                     ("limit", JVal (VNum 10));
                     ("reminders", json_of_rows [])]) /\
  exists bound bound',
    queries
      (trace
         (snd (get_reminders
                 (mkRequest None (Some alice) VUndefined
                    [("page", VStr "3"); ("limit", VStr "10")] [])
                 (set_server [Rows []; Rows []] sample_world))))
    = Query 0
        "SELECT * FROM reminders  ORDER BY due_date ASC LIMIT $1 OFFSET $2"
        [VNum 10; VNum ((3 - 1) * 10)] bound'
      :: Query 0 "SELECT set_config($1, $2, true)"
           [VStr "app.current_user_id"; id alice] bound
      :: queries (trace (set_server [Rows []; Rows []] sample_world)).
Proof.
  apply (reminders_page_and_limit
           (mkRequest None (Some alice) VUndefined
              [("page", VStr "3"); ("limit", VStr "10")] [])
           (set_server [Rows []; Rows []] sample_world)
           (checked_out (set_server [Rows []; Rows []] sample_world))
           0 alice 3%Z 10%Z [] [] []).
  - reflexivity.
  - split; reflexivity.
  - reflexivity.
  - reflexivity.
  - reflexivity.
  - reflexivity.
  - reflexivity.
  - discriminate.
  - discriminate.
  - reflexivity.
  - reflexivity.
  - reflexivity.
  - reflexivity.
Defined.

(** X20.  [GET /reminders] falls back to page 1 and limit 20 whenever
    [parseInt] gives [NaN] or 0 for the field: a missing field, text
    that does not start with a number, or [0] itself.  With both at their
    fallback the offset is 0. *)
Theorem reminders_pagination_defaults
  (req : request) (w w1 : world) (c : nat) (p : principal)
  (rs found : list row) (sv : list outcome) :
  user req = Some p ->
  fresh_response w ->
  Pg.connect w = (Ok c, w1) ->
  server w = Rows rs :: Rows found :: sv ->
  (ParseInt.parseInt (get "page" (query req)) = Js.NaN \/
   ParseInt.parseInt (get "page" (query req)) = Js.Finite 0) ->
  (ParseInt.parseInt (get "limit" (query req)) = Js.NaN \/
   ParseInt.parseInt (get "limit" (query req)) = Js.Finite 0) ->
  exists text params bound bound',
    queries (trace (snd (get_reminders req w)))
    = Query c text (params ++ [VNum 20; VNum 0])%list bound'
      :: Query c "SELECT set_config($1, $2, true)"
           [VStr "app.current_user_id"; id p] bound
      :: queries (trace w) /\
    response (snd (get_reminders req w))
    = Some (200, JObj [("page", JVal (VNum 1));
                       ("limit", JVal (VNum 20));
                       ("reminders", json_of_rows found)]).
Proof.
  intros Hu [Hst Hse] Hc Hsv Hp Hl.
  assert (Ep : ParseInt.or_default (get "page" (query req)) 1 = Js.Finite 1)
    by (unfold ParseInt.or_default; destruct Hp as [-> | ->]; reflexivity).
  assert (El : ParseInt.or_default (get "limit" (query req)) 20 = Js.Finite 20)
    by (unfold ParseInt.or_default; destruct Hl as [-> | ->]; reflexivity).
  clear Hp Hl.
  enter w req Hc; cbn in Hu, Hst, Hse, Hsv, Ep, El; subst;
    cbv [get_reminders query]; rewrite Ep, El;
    change (Js.mul (Js.sub (Js.Finite 1) (Js.Finite 1)) (Js.Finite 20))
      with (Js.Finite 0);
    run; do 4 eexists; (split; reflexivity).
Qed.

Lemma reminders_pagination_defaults_witness :
  exists text params bound bound',
    queries
      (trace (snd (get_reminders
                     (mkRequest None (Some alice) VUndefined
                        [("page", VStr "0"); ("limit", VStr "many")] [])
                     (set_server [Rows []; Rows []] sample_world))))
    = Query 0 text (params ++ [VNum 20; VNum 0])%list bound'
      :: Query 0 "SELECT set_config($1, $2, true)"
           [VStr "app.current_user_id"; id alice] bound
      :: queries (trace (set_server [Rows []; Rows []] sample_world)) /\
    response
      (snd (get_reminders
              (mkRequest None (Some alice) VUndefined
                 [("page", VStr "0"); ("limit", VStr "many")] [])
              (set_server [Rows []; Rows []] sample_world)))
    = Some (200, JObj [("page", JVal (VNum 1));
                       ("limit", JVal (VNum 20));
                       ("reminders", json_of_rows [])]).
Proof.
  apply (reminders_pagination_defaults
           (mkRequest None (Some alice) VUndefined
              [("page", VStr "0"); ("limit", VStr "many")] [])
           (set_server [Rows []; Rows []] sample_world)
           (checked_out (set_server [Rows []; Rows []] sample_world))
           0 alice [] [] []).
  - reflexivity.
  - split; reflexivity.
  - reflexivity.
  - reflexivity.
  - right. reflexivity.
  - left. reflexivity.
Defined.

Lemma not_the_text_true (T : Type) (X Y : T) (s : string) :
  s <> "true" ->
  match s with
  | "true" => X
  | _ => Y
  end = Y.
Proof.
  intros Hne.
  destruct s as [|c s]; [reflexivity|].
  destruct c as [[] [] [] [] [] [] [] []]; try reflexivity.
  destruct s as [|c s]; [reflexivity|].
  destruct c as [[] [] [] [] [] [] [] []]; try reflexivity.
  destruct s as [|c s]; [reflexivity|].
  destruct c as [[] [] [] [] [] [] [] []]; try reflexivity.
  destruct s as [|c s]; [reflexivity|].
  destruct c as [[] [] [] [] [] [] [] []]; try reflexivity.
  destruct s as [|c s]; [now destruct Hne|reflexivity].
Qed.

(** X21.  [GET /reminders] with a [completed] field: the listing gets
    the clause [WHERE completed = $1], the limit and the offset move to
    [$2] and [$3], and the first parameter is [true] only for the exact
    text [true]; any other value of the field, [TRUE] or [1] included,
    filters for [false]. *)
Theorem reminders_completed_filter
  (req : request) (w w1 : world) (c : nat) (p : principal)
  (rs : list row) (sv : list outcome) :
  user req = Some p ->
  Pg.connect w = (Ok c, w1) ->
  server w = Rows rs :: sv ->
  get "completed" (query req) <> VUndefined ->
  exists (limit offset : Js.number) bound bound',
    queries (trace (snd (get_reminders req w)))
    = Query c
        "SELECT * FROM reminders WHERE completed = $1 ORDER BY due_date ASC LIMIT $2 OFFSET $3"
        [VBool (is_text "true" (get "completed" (query req)));
         Js.param limit; Js.param offset] bound'
      :: Query c "SELECT set_config($1, $2, true)"
           [VStr "app.current_user_id"; id p] bound
      :: queries (trace w).
Proof.
  intros Hu Hc Hsv Hf.
  enter w req Hc; cbn in Hu, Hsv, Hf; subst;
    cbv [get_reminders query];
    (destruct (get "completed" qry) as [| |b|z|s]; [contradiction|..];
     try (destruct sv as [|[rs'|e'] sv]; destruct se as [j|]; run;
          do 4 eexists; reflexivity);
     cbv iota;
     destruct (String.eqb_spec s "true") as [->|Hne];
     [|rewrite !(not_the_text_true _ _ _ s Hne)];
     destruct sv as [|[rs'|e'] sv]; destruct se as [j|]; run;
     unfold is_text; rewrite ?String.eqb_refl;
     try (apply String.eqb_neq in Hne; rewrite Hne);
     do 4 eexists; reflexivity).
Qed.

Lemma reminders_completed_filter_witness :
  exists (limit offset : Js.number) bound bound',
    queries
      (trace (snd (get_reminders
                     (mkRequest None (Some alice) VUndefined
                        [("completed", VStr "TRUE")] [])
                     (set_server [Rows []] sample_world))))
    = Query 0
        "SELECT * FROM reminders WHERE completed = $1 ORDER BY due_date ASC LIMIT $2 OFFSET $3"
        [VBool false; Js.param limit; Js.param offset] bound'
      :: Query 0 "SELECT set_config($1, $2, true)"
           [VStr "app.current_user_id"; id alice] bound
      :: queries (trace (set_server [Rows []] sample_world)).
Proof.
  apply (reminders_completed_filter
           (mkRequest None (Some alice) VUndefined
              [("completed", VStr "TRUE")] [])
           (set_server [Rows []] sample_world)
           (checked_out (set_server [Rows []] sample_world))
           0 alice [] []).
  - reflexivity.
  - reflexivity.
  - reflexivity.
  - discriminate.
Defined.
